(** * A shallow embedding of the replication consumer of [main.go]

    The program is one [main] function: a bootstrap (publication, system
    identification, slot lookup, start of replication) followed by an endless
    receive loop, plus the helper [decodeTextColumnData].  The packages it
    calls ([pglogrepl], [pgconn], [pgtype]) are not part of the repository:
    they appear here as a record of functions, [Library], over which every
    general theorem is quantified.  Clock readings and the results of network
    calls are inputs of each loop iteration; log lines and calls that send
    something are recorded as a list of [Event]s. *)

From Stdlib Require Import ZArith Lia.
From Stdlib Require Import Strings.Byte.
From stdpp Require Import base list strings gmap fin_maps.

Local Open Scope Z_scope.

(** ** Values of the Go program *)

(** Go's [error] values are only ever printed by this program. *)
Definition error : Type := string.

(** [pglogrepl.LSN] is a [uint64]; addition wraps around. *)
Definition LSN : Type := Z.
Definition LSN_add (a b : Z) : LSN := (a + b) mod 2 ^ 64.

(** A [time.Time] is counted in nanoseconds since Go's zero time
    ([time.Time{}], January 1 of year 1); a [time.Duration] in nanoseconds. *)
Definition Time : Type := Z.
Definition zeroTime : Time := 0.
Definition Second : Z := 1000000000.
Definition After (t u : Time) : bool := u <? t.

(** What an [interface{}] stored in a row may hold. *)
Inductive GoValue : Type :=
| GoNil
| GoString (s : list byte)
| GoInt (z : Z)
| GoBool (b : bool).

(** ** Messages of the [pglogrepl] package *)

(** [pglogrepl.RelationMessageColumn] *)
Module Rel.
Record Column : Type := {
  Flags : Z;
  Name : string;
  DataType : Z;
  TypeModifier : Z
}.
End Rel.

(** [pglogrepl.TupleDataColumn]; [DataType] is the tag byte
    ['n'], ['u'], ['t'] or ['b']. *)
Module Tup.
Record Column : Type := {
  DataType : byte;
  Data : list byte
}.
End Tup.

Record RelationMessage : Type := {
  RelationID : Z;
  Namespace : string;
  RelationName : string;
  ReplicaIdentity : byte;
  Columns : list Rel.Column
}.

(** [pglogrepl.TupleData] is its slice of columns. *)
Definition TupleData : Type := list Tup.Column.

Record PrimaryKeepaliveMessage : Type := {
  pkm_ServerWALEnd : LSN;
  pkm_ServerTime : Z;
  ReplyRequested : bool
}.

Record XLogData : Type := {
  WALStart : LSN;
  ServerWALEnd : LSN;
  ServerTime : Z;
  WALData : list byte
}.

(** The dynamic types the type switch of the loop distinguishes.  The
    interface [pglogrepl.Message] is open: [OtherMessage] stands for any
    implementation that reaches the [default] arm.  [Tuple] and [NewTuple]
    are pointers the package always sets on a successful parse; [OldTuple]
    may be [nil]. *)
Inductive Message : Type :=
| MRelation (m : RelationMessage)
| MBegin (FinalLSN : LSN) (CommitTime : Z) (Xid : Z)
| MCommit (Flags : Z) (CommitLSN TransactionEndLSN : LSN) (CommitTime : Z)
| MInsert (relationID : Z) (Tuple : TupleData)
| MUpdate (relationID : Z) (OldTupleType : byte)
          (OldTuple : option TupleData) (NewTuple : TupleData)
| MDelete (relationID : Z) (OldTupleType : byte) (OldTuple : TupleData)
| MTruncate (RelationNum : Z) (Option : Z) (RelationIDs : list Z)
| MType (DataType : Z) (namespace name : string)
| MOrigin (CommitLSN : LSN) (name : string)
| OtherMessage (typeName : string).

(** [pglogrepl.IdentifySystemResult] *)
Record IdentifySystemResult : Type := {
  SystemID : string;
  Timeline : Z;
  XLogPos : LSN;
  DBName : string
}.

(** A row of the catalog view [pg_replication_slots], of which the program
    selects every column; only the two below are named here. *)
Record SlotRow : Type := {
  slot_name : string;
  confirmed_flush_lsn : LSN
}.

(** A [*pgconn.Result]: [ReadAll] returns one per statement of the query. *)
Record Result : Type := {
  Rows : list SlotRow
}.

(** What [conn.ReceiveMessage] can hand back: [rawMsg] is a
    [*pgproto3.ErrorResponse], a [*pgproto3.CopyData] or anything else. *)
Inductive BackendMessage : Type :=
| ErrorResponse (text : string)
| CopyData (Data : list byte)
| OtherBackendMessage (typeName : string).

Inductive Received : Type :=
| ReceiveError (timeout : bool) (e : error)
| ReceiveOk (rawMsg : BackendMessage).

(** ** The packages the program calls *)

(** A run-time panic: [panic(err)] of line 69, an index out of the range of
    a slice, or any other run-time error, which Go reports by its text. *)
Inductive Panic : Type :=
| panic_error (e : error)
| index_out_of_range (idx len : nat)
| runtime_panic (text : string).

(** How a call that returns no result ends: it panics, or it returns an
    error. *)
Inductive Failure : Type :=
| Panics (p : Panic)
| Errors (err : error).

(** A text decoder: [DecodeText] followed by [Get]. *)
Definition TextDecoder : Type := list byte -> error + GoValue.

(** A [pgtype.DataType]; [Value] is [None] when the registered value does
    not implement [pgtype.TextDecoder]. *)
Record DataType : Type := {
  TypeName : string;
  Value : option TextDecoder
}.

(** [pglogrepl.Parse] reads its input without checking every length and
    converts the decoder it picked without checking that it picked one, so a
    call of it can panic; the two parsers of frames check the length of
    their input first, and return an error or a result. *)
Record Library : Type := {
  ParsePrimaryKeepaliveMessage : list byte -> error + PrimaryKeepaliveMessage;
  ParseXLogData : list byte -> error + XLogData;
  Parse : list byte -> Failure + Message;
  (** [ci.DataTypeForOID] on the [connInfo] built by [pgtype.NewConnInfo] *)
  DataTypeForOID : Z -> option DataType;
  (** [&pgtype.GenericText{}] *)
  GenericText : TextDecoder
}.

(** [pglogrepl.PrimaryKeepaliveMessageByteID] and [pglogrepl.XLogDataByteID] *)
Definition PrimaryKeepaliveMessageByteID : byte := "k"%byte.
Definition XLogDataByteID : byte := "w"%byte.

(** ** Effects: logging, [log.Fatal], [panic], [return] *)

Inductive Fatal : Type :=
| failed_to_connect (e : error)
| drop_publication_error (e : error)
| create_publication_error (e : error)
| IdentifySystem_failed (e : error)
| CreateReplicationSlot_failed (e : error)
| StartReplication_failed (e : error)
| SendStandbyStatusUpdate_failed (e : error)
| ReceiveMessage_failed (e : error)
| ParsePrimaryKeepaliveMessage_failed (e : error)
| ParseXLogData_failed (e : error)
| Parse_logical_replication_message (e : error)
| unknown_relation_ID (id : Z)
| error_decoding_column_data (e : error).

Inductive Exit : Type :=
| Returned
| LogFatal (f : Fatal)
| Panicked (p : Panic).

(** The row maps of the program: [map[string]interface{}]. *)
Abbreviation Row := (gmap string GoValue).

Inductive Event : Type :=
| Exec (sql : string)
| Log_create_publication
| IdentifySystem
| Log_sysident (sysident : IdentifySystemResult)
| CreateReplicationSlot (slotName outputPlugin : string) (Temporary : bool)
| Log_created_slot (slotName : string)
| Log_pos (pos : LSN)
| StartReplication (slotName : string) (startLSN : LSN) (PluginArgs : list string)
| Log_replication_started (slotName : string)
| SendStandbyStatusUpdate (WALWritePosition : LSN)
| Log_sent_standby_status
| Log_WAL_error (text : string)
| Log_unexpected_message (typeName : string)
| Log_keepalive (pkm : PrimaryKeepaliveMessage)
| Log_XLogData (xld : XLogData)
| Log_receive_logical (m : Message)
| Print_begin
| Print_commit
| Print_data (data : list byte)
| Print_byte_data (data : list byte)
| Log_insert (namespace name : string) (values : Row)
| Print_oldTuple (t : option TupleData)
| Log_update (namespace name : string) (newValues oldValues : Row)
| Print_delete (relationID : Z) (OldTuple : TupleData)
| Print_truncate (RelationIDs : list Z)
| Print_type (DataType : Z)
| Log_unknown_message_type (typeName : string).

Inductive Res (A : Type) : Type :=
| Ok (a : A)
| Stop (e : Exit).
Arguments Ok {A} a.
Arguments Stop {A} e.

(** A computation writes events and either yields a value or leaves the
    loop for good. *)
Definition M (A : Type) : Type := list Event * Res A.

Definition ret {A} (a : A) : M A := ([], Ok a).
Definition bind {A B} (c : M A) (k : A -> M B) : M B :=
  match c with
  | (evs, Ok a) => let '(evs', r) := k a in (evs ++ evs', r)
  | (evs, Stop e) => (evs, Stop e)
  end.
Definition emit (ev : Event) : M unit := ([ev], Ok tt).
Definition fatal {A} (f : Fatal) : M A := ([], Stop (LogFatal f)).
Definition panic {A} (p : Panic) : M A := ([], Stop (Panicked p)).
Definition leave {A} : M A := ([], Stop Returned).

Notation "'do' x <- c ; k" := (bind c (fun x => k))
  (at level 10, x name, c at level 100, k at level 200).
Notation "c ;; k" := (bind c (fun _ => k))
  (at level 100, k at level 200, right associativity).

(** ** [decodeTextColumnData] *)

Definition decodeTextColumnData (L : Library) (data : list byte) (dataType : Z)
  : error + GoValue :=
  let decoder :=
    match DataTypeForOID L dataType with
    | Some dt =>
        match Value dt with
        | Some d => d
        | None => GenericText L
        end
    | None => GenericText L
    end in
  match decoder data with
  | inl err => inl err
  | inr v => inr v
  end.

(** ** The per-column loop

    [main] contains this loop three times, word for word (for [values],
    [oldValues] and [newValues]).  [decodeColumn] is the [switch] on the
    tag of one column (lines 167-181); a tag other than the four listed
    falls through the [switch]. *)
Definition decodeColumn (L : Library) (rc : Rel.Column) (col : Tup.Column)
    (values : Row) : M Row :=
  let colName := Rel.Name rc in
  match Tup.DataType col with
  | "n"%byte => ret (<[colName := GoNil]> values)
  | "u"%byte => emit (Print_data (Tup.Data col)) ;; ret values
  | "t"%byte =>
      match decodeTextColumnData L (Tup.Data col) (Rel.DataType rc) with
      | inl err => fatal (error_decoding_column_data err)
      | inr val => ret (<[colName := val]> values)
      end
  | "b"%byte => emit (Print_byte_data (Tup.Data col)) ;; ret values
  | _ => ret values
  end.

(** [idx] counts the tuple's columns and indexes [rel.Columns], which
    panics when it is out of range. *)
Fixpoint decodeColumns (L : Library) (rel : RelationMessage) (idx : nat)
    (cols : list Tup.Column) (values : Row) : M Row :=
  match cols with
  | [] => ret values
  | col :: rest =>
      match Columns rel !! idx with
      | None => panic (index_out_of_range idx (length (Columns rel)))
      | Some rc =>
          do values' <- decodeColumn L rc col values;
          decodeColumns L rel (S idx) rest values'
      end
  end.

(** ** The state of the loop

    The three variables of [main] that the loop assigns. *)
Record State : Type := {
  clientXLogPos : LSN;
  nextStandbyMessageDeadline : Time;
  relations : gmap Z RelationMessage
}.

Definition standbyMessageTimeout : Z := Second * 10.

Definition set_deadline (st : State) (t : Time) : State :=
  {| clientXLogPos := clientXLogPos st;
     nextStandbyMessageDeadline := t;
     relations := relations st |}.

(** What one iteration reads from the outside world: the clock at the top of
    the loop, the outcome of the status update and the clock after it (both
    only looked at when an update is sent), and what [ReceiveMessage]
    returned. *)
Record Tick : Type := {
  now : Time;
  sendError : option error;
  nowAfterSend : Time;
  received : Received
}.

(** Lines 93-102. *)
Definition statusUpdate (st : State) (tk : Tick) : M State :=
  if After (now tk) (nextStandbyMessageDeadline st) then
    emit (SendStandbyStatusUpdate (clientXLogPos st)) ;;
    match sendError tk with
    | Some err => fatal (SendStandbyStatusUpdate_failed err)
    | None =>
        emit Log_sent_standby_status ;;
        ret (set_deadline st (nowAfterSend tk + standbyMessageTimeout))
    end
  else ret st.

(** Lines 148-252: the type switch on the parsed message.  Only the
    [RelationMessage] arm changes [relations]. *)
Definition dispatch (L : Library) (relations : gmap Z RelationMessage)
    (logicalMsg : Message) : M (gmap Z RelationMessage) :=
  match logicalMsg with
  | MRelation m => ret (<[RelationID m := m]> relations)
  | MBegin _ _ _ => emit Print_begin ;; ret relations
  | MCommit _ _ _ _ => emit Print_commit ;; ret relations
  | MInsert relationID Tuple =>
      match relations !! relationID with
      | None => fatal (unknown_relation_ID relationID)
      | Some rel =>
          do values <- decodeColumns L rel 0 Tuple ∅;
          emit (Log_insert (Namespace rel) (RelationName rel) values) ;;
          ret relations
      end
  | MUpdate relationID _ OldTuple NewTuple =>
      match relations !! relationID with
      | None => fatal (unknown_relation_ID relationID)
      | Some rel =>
          emit (Print_oldTuple OldTuple) ;;
          do oldValues <-
            match OldTuple with
            | Some t => decodeColumns L rel 0 t ∅
            | None => ret ∅
            end;
          do newValues <- decodeColumns L rel 0 NewTuple ∅;
          emit (Log_update (Namespace rel) (RelationName rel) newValues oldValues) ;;
          ret relations
      end
  | MDelete relationID _ OldTuple =>
      emit (Print_delete relationID OldTuple) ;; ret relations
  | MTruncate _ _ RelationIDs =>
      emit (Print_truncate RelationIDs) ;; ret relations
  | MType DataType _ _ => emit (Print_type DataType) ;; ret relations
  | MOrigin _ _ => ret relations
  | OtherMessage typeName =>
      emit (Log_unknown_message_type typeName) ;; ret relations
  end.

(** Lines 137-254: an XLogData chunk. *)
Definition handleXLogData (L : Library) (st : State) (buf : list byte) : M State :=
  match ParseXLogData L buf with
  | inl err => fatal (ParseXLogData_failed err)
  | inr xld =>
      emit (Log_XLogData xld) ;;
      match Parse L (WALData xld) with
      | inl (Panics p) => panic p
      | inl (Errors err) => fatal (Parse_logical_replication_message err)
      | inr logicalMsg =>
          emit (Log_receive_logical logicalMsg) ;;
          do relations' <- dispatch L (relations st) logicalMsg;
          ret {| clientXLogPos :=
                   LSN_add (WALStart xld) (Z.of_nat (length (WALData xld)));
                 nextStandbyMessageDeadline := nextStandbyMessageDeadline st;
                 relations := relations' |}
      end
  end.

(** Lines 126-135: a primary keepalive. *)
Definition handleKeepalive (L : Library) (st : State) (buf : list byte) : M State :=
  match ParsePrimaryKeepaliveMessage L buf with
  | inl err => fatal (ParsePrimaryKeepaliveMessage_failed err)
  | inr pkm =>
      emit (Log_keepalive pkm) ;;
      if ReplyRequested pkm then ret (set_deadline st zeroTime) else ret st
  end.

(** Line 125: [switch msg.Data[0]]; indexing an empty [Data] panics. *)
Definition handleCopyData (L : Library) (st : State) (Data : list byte) : M State :=
  match Data with
  | [] => panic (index_out_of_range 0 0)
  | b :: rest =>
      if Byte.eqb b PrimaryKeepaliveMessageByteID then handleKeepalive L st rest
      else if Byte.eqb b XLogDataByteID then handleXLogData L st rest
      else ret st
  end.

(** One pass through the body of the [for] loop (lines 93-255).  [Ok]
    means the loop goes round again. *)
Definition iteration (L : Library) (st : State) (tk : Tick) : M State :=
  do st <- statusUpdate st tk;
  match received tk with
  | ReceiveError timeout err =>
      if timeout then ret st else fatal (ReceiveMessage_failed err)
  | ReceiveOk (ErrorResponse text) => emit (Log_WAL_error text) ;; leave
  | ReceiveOk (OtherBackendMessage typeName) =>
      emit (Log_unexpected_message typeName) ;; ret st
  | ReceiveOk (CopyData Data) => handleCopyData L st Data
  end.

(** The loop, driven by the inputs of its successive iterations. *)
Fixpoint loop (L : Library) (ticks : list Tick) (st : State) : M State :=
  match ticks with
  | [] => ret st
  | tk :: ticks => do st' <- iteration L st tk; loop L ticks st'
  end.

(** ** Bootstrap (lines 32-90) *)

(** The answers of the server to the calls made before the loop, and the
    clock reading of line 88. *)
Record Startup : Type := {
  connectError : option error;
  dropPublicationError : option error;
  createPublicationError : option error;
  identifySystem : error + IdentifySystemResult;
  slotQuery : error + list Result;
  createSlotError : option error;
  startReplicationError : option error;
  startNow : Time
}.

Definition outputPlugin : string := "pgoutput".
Definition slotName : string := "pglogrepl_demo".

(** [outputPlugin] is the constant ["pgoutput"], so only the first arm of
    the [if] of lines 53-57 can run. *)
Definition pluginArguments : list string :=
  ["proto_version '1'"; "publication_names 'pglogrepl_demo'"]%string.

Definition getReplicationSlot : string :=
  ("SELECT * FROM pg_replication_slots WHERE slot_name='" +:+ slotName +:+ "'")%string.

Definition check (err : option error) (f : error -> Fatal) : M unit :=
  match err with
  | Some e => fatal (f e)
  | None => ret tt
  end.

Definition bootstrap (su : Startup) : M State :=
  check (connectError su) failed_to_connect ;;
  emit (Exec "DROP PUBLICATION IF EXISTS pglogrepl_demo;") ;;
  check (dropPublicationError su) drop_publication_error ;;
  emit (Exec "CREATE PUBLICATION pglogrepl_demo FOR ALL TABLES;") ;;
  check (createPublicationError su) create_publication_error ;;
  emit Log_create_publication ;;
  emit IdentifySystem ;;
  match identifySystem su with
  | inl err => fatal (IdentifySystem_failed err)
  | inr sysident =>
      emit (Log_sysident sysident) ;;
      emit (Exec getReplicationSlot) ;;
      match slotQuery su with
      | inl err => panic (panic_error err)
      | inr res =>
          (if Nat.eqb (length res) 0 then
             emit (CreateReplicationSlot slotName outputPlugin false) ;;
             check (createSlotError su) CreateReplicationSlot_failed ;;
             emit (Log_created_slot slotName)
           else ret tt) ;;
          emit (Log_pos (XLogPos sysident)) ;;
          emit (StartReplication slotName (XLogPos sysident) pluginArguments) ;;
          check (startReplicationError su) StartReplication_failed ;;
          emit (Log_replication_started slotName) ;;
          ret {| clientXLogPos := XLogPos sysident;
                 nextStandbyMessageDeadline := startNow su + standbyMessageTimeout;
                 relations := ∅ |}
      end
  end.

(** The whole of [main]. *)
Definition main (L : Library) (su : Startup) (ticks : list Tick) : M State :=
  do st <- bootstrap su; loop L ticks st.

(** ** A concrete library

    An executable instance of [Library] for running the program on byte
    frames.  It follows the decoders of [pglogrepl] for the version 1
    [pgoutput] messages: each checks a minimal length and returns an error
    below it, then reads its fields without further checks, so that input
    that ends too early makes the read panic; a string without its final
    zero byte and a tuple type that is not expected are errors.  The table of
    types is an excerpt of the one [pgtype.NewConnInfo] builds. *)
Module Wire.

Definition byteZ (b : byte) : Z := Z.of_N (Byte.to_N b).

(** Big-endian unsigned integers, as [binary.BigEndian] reads them. *)
Definition be (bs : list byte) : Z :=
  fold_left (fun acc b => acc * 256 + byteZ b) bs 0.

Definition int64 (z : Z) : Z := if z <? 2 ^ 63 then z else z - 2 ^ 64.
Definition int32 (z : Z) : Z := if z <? 2 ^ 31 then z else z - 2 ^ 32.

Definition Parser (A : Type) : Type := list byte -> Failure + (A * list byte).

Definition pure {A} (a : A) : Parser A := fun src => inr (a, src).
Definition andThen {A B} (p : Parser A) (k : A -> Parser B) : Parser B :=
  fun src => match p src with
             | inr (a, rest) => k a rest
             | inl f => inl f
             end.
Definition reject {A} (err : error) : Parser A := fun _ => inl (Errors err).

Notation "'let*' x := p 'in' k" := (andThen p (fun x => k))
  (at level 10, x name, p at level 100, k at level 200).

(** A read past the end of the input. *)
Definition outOfRange : Panic := runtime_panic "index out of range".

(** [lengthError]: the check each decoder starts with. *)
Definition atLeast (n : nat) (name : string) : Parser unit :=
  fun src => if (length src <? n)%nat
             then inl (Errors (name +:+ " is too short"))
             else inr (tt, src).

Definition bytes (n : nat) : Parser (list byte) :=
  fun src => if (n <=? length src)%nat then inr (take n src, drop n src)
             else inl (Panics outOfRange).

Definition uint (n : nat) : Parser Z := let* bs := bytes n in pure (be bs).
Definition uint8 : Parser byte :=
  fun src => match src with
             | b :: rest => inr (b, rest)
             | [] => inl (Panics outOfRange)
             end.

Fixpoint untilZero (src : list byte) : option (string * list byte) :=
  match src with
  | [] => None
  | b :: rest =>
      if Byte.eqb b "000"%byte then Some (EmptyString, rest)
      else match untilZero rest with
           | Some (s, rest') => Some (String (Ascii.ascii_of_byte b) s, rest')
           | None => None
           end
  end.

(** [decodeString]: a zero-terminated string; without the zero byte the
    decoder returns an error. *)
Definition cstring : Parser string :=
  fun src => match untilZero src with
             | Some r => inr r
             | None => inl (Errors "decode string error")
             end.

Fixpoint times {A} (n : nat) (p : Parser A) : Parser (list A) :=
  match n with
  | O => pure []
  | S n => let* a := p in let* l := times n p in pure (a :: l)
  end.

Definition relationColumn : Parser Rel.Column :=
  let* flags := uint8 in
  let* name := cstring in
  let* dataType := uint 4 in
  let* typmod := uint 4 in
  pure {| Rel.Flags := byteZ flags; Rel.Name := name;
          Rel.DataType := dataType; Rel.TypeModifier := int32 typmod |}.

Definition relationMessage : Parser Message :=
  let* _ := atLeast 7 "RelationMessage" in
  let* id := uint 4 in
  let* namespace := cstring in
  let* name := cstring in
  let* identity := uint8 in
  let* columnNum := uint 2 in
  let* columns := times (Z.to_nat columnNum) relationColumn in
  pure (MRelation {| RelationID := id; Namespace := namespace;
                     RelationName := name; ReplicaIdentity := identity;
                     Columns := columns |}).

(** [TupleData.Decode]: only text and binary columns carry data. *)
Definition tupleColumn : Parser Tup.Column :=
  let* tag := uint8 in
  match tag with
  | "t"%byte | "b"%byte =>
      let* len := uint 4 in
      let* data := bytes (Z.to_nat len) in
      pure {| Tup.DataType := tag; Tup.Data := data |}
  | _ => pure {| Tup.DataType := tag; Tup.Data := [] |}
  end.

Definition tupleData : Parser TupleData :=
  let* columnNum := uint 2 in times (Z.to_nat columnNum) tupleColumn.

Definition insertMessage : Parser Message :=
  let* _ := atLeast 8 "InsertMessage" in
  let* id := uint 4 in
  let* tupleType := uint8 in
  if Byte.eqb tupleType "N" then
    let* tuple := tupleData in
    pure (MInsert id tuple)
  else reject "InsertMessage: invalid tuple type".

Definition updateMessage : Parser Message :=
  let* _ := atLeast 6 "UpdateMessage" in
  let* id := uint 4 in
  let* tupleType := uint8 in
  match tupleType with
  | "K"%byte | "O"%byte =>
      let* old := tupleData in
      let* _ := uint8 in
      let* new := tupleData in
      pure (MUpdate id tupleType (Some old) new)
  | "N"%byte =>
      let* new := tupleData in
      pure (MUpdate id "000"%byte None new)
  | _ => reject "UpdateMessage: invalid tuple type"
  end.

Definition deleteMessage : Parser Message :=
  let* _ := atLeast 4 "DeleteMessage" in
  let* id := uint 4 in
  let* tupleType := uint8 in
  match tupleType with
  | "K"%byte | "O"%byte =>
      let* old := tupleData in
      pure (MDelete id tupleType old)
  | _ => reject "DeleteMessage: invalid tuple type"
  end.

Definition truncateMessage : Parser Message :=
  let* _ := atLeast 9 "TruncateMessage" in
  let* relationNum := uint 4 in
  let* option := uint8 in
  let* ids := times (Z.to_nat relationNum) (uint 4) in
  pure (MTruncate relationNum (byteZ option) ids).

Definition beginMessage : Parser Message :=
  let* _ := atLeast 20 "BeginMessage" in
  let* finalLSN := uint 8 in
  let* commitTime := uint 8 in
  let* xid := uint 4 in
  pure (MBegin finalLSN (int64 commitTime) xid).

Definition commitMessage : Parser Message :=
  let* _ := atLeast 25 "CommitMessage" in
  let* flags := uint8 in
  let* commitLSN := uint 8 in
  let* endLSN := uint 8 in
  let* commitTime := uint 8 in
  pure (MCommit (byteZ flags) commitLSN endLSN (int64 commitTime)).

Definition originMessage : Parser Message :=
  let* _ := atLeast 8 "OriginMessage" in
  let* commitLSN := uint 8 in
  let* name := cstring in
  pure (MOrigin commitLSN name).

Definition typeMessage : Parser Message :=
  let* _ := atLeast 6 "TypeMessage" in
  let* dataType := uint 4 in
  let* namespace := cstring in
  let* name := cstring in
  pure (MType dataType namespace name).

Definition decoderFor (tag : byte) : option (Parser Message) :=
  match tag with
  | "R"%byte => Some relationMessage
  | "Y"%byte => Some typeMessage
  | "I"%byte => Some insertMessage
  | "U"%byte => Some updateMessage
  | "D"%byte => Some deleteMessage
  | "T"%byte => Some truncateMessage
  | "B"%byte => Some beginMessage
  | "C"%byte => Some commitMessage
  | "O"%byte => Some originMessage
  | _ => None
  end.

(** [pglogrepl.Parse]: [data[0]] is read unchecked, and when the tag picks
    no decoder the final conversion of the decoder to a [Message] panics. *)
Definition parse (data : list byte) : Failure + Message :=
  match data with
  | [] => inl (Panics (index_out_of_range 0 0))
  | tag :: src =>
      match decoderFor tag with
      | None =>
          inl (Panics (runtime_panic
            "interface conversion: interface is nil, not pglogrepl.Message"))
      | Some decoder =>
          match decoder src with
          | inr (m, _) => inr m
          | inl f => inl f
          end
      end
  end.

Definition parsePrimaryKeepaliveMessage (buf : list byte)
  : error + PrimaryKeepaliveMessage :=
  if negb (Nat.eqb (length buf) 17) then
    inl "PrimaryKeepaliveMessage must be 17 bytes"%string
  else
    inr {| pkm_ServerWALEnd := be (take 8 buf);
           pkm_ServerTime := int64 (be (take 8 (drop 8 buf)));
           ReplyRequested := negb (be (drop 16 buf) =? 0) |}.

Definition parseXLogData (buf : list byte) : error + XLogData :=
  if (length buf <? 24)%nat then
    inl "XLogData must be at least 24 bytes"%string
  else
    inr {| WALStart := be (take 8 buf);
           ServerWALEnd := be (take 8 (drop 8 buf));
           ServerTime := int64 (be (take 8 (drop 16 buf)));
           WALData := drop 24 buf |}.

(** Text decoders.  [text] never fails; an integer decoder accepts an
    optional sign followed by decimal digits and a value that fits its
    width, as [strconv.ParseInt] does; [boolean] accepts a single byte. *)
Definition text : TextDecoder := fun src => inr (GoString src).

Definition digit (b : byte) : option Z :=
  let z := byteZ b in
  if (48 <=? z) && (z <=? 57) then Some (z - 48) else None.

Fixpoint digits (acc : Z) (src : list byte) : option Z :=
  match src with
  | [] => Some acc
  | b :: rest =>
      match digit b with
      | Some d => digits (acc * 10 + d) rest
      | None => None
      end
  end.

Definition unsigned (src : list byte) : option Z :=
  match src with
  | [] => None
  | _ => digits 0 src
  end.

Definition integer (bits : Z) : TextDecoder := fun src =>
  let parsed :=
    match src with
    | "-"%byte :: rest => option_map Z.opp (unsigned rest)
    | "+"%byte :: rest => unsigned rest
    | _ => unsigned src
    end in
  match parsed with
  | Some z =>
      if (- 2 ^ (bits - 1) <=? z) && (z <? 2 ^ (bits - 1)) then inr (GoInt z)
      else inl "value out of range"%string
  | None => inl "invalid syntax"%string
  end.

Definition int4 : TextDecoder := integer 32.

Definition boolean : TextDecoder := fun src =>
  match src with
  | [b] => inr (GoBool (Byte.eqb b "t"))
  | _ => inl "invalid length for bool"%string
  end.

(** Some rows of the table of [pgtype]: [bool], [int8], [int2], [int4],
    [text] and [varchar] with their text decoders, and [record] (2249), whose
    value has a binary decoder only.  An OID the excerpt leaves out is
    answered as not registered, which is what [pgtype] answers for the OIDs
    outside its table, those of user-defined types among them. *)
Definition dataTypeForOID (oid : Z) : option DataType :=
  if oid =? 16 then Some {| TypeName := "bool"; Value := Some boolean |}
  else if oid =? 20 then Some {| TypeName := "int8"; Value := Some (integer 64) |}
  else if oid =? 21 then Some {| TypeName := "int2"; Value := Some (integer 16) |}
  else if oid =? 23 then Some {| TypeName := "int4"; Value := Some int4 |}
  else if oid =? 25 then Some {| TypeName := "text"; Value := Some text |}
  else if oid =? 1043 then Some {| TypeName := "varchar"; Value := Some text |}
  else if oid =? 2249 then Some {| TypeName := "record"; Value := None |}
  else None.

Definition library : Library := {|
  ParsePrimaryKeepaliveMessage := parsePrimaryKeepaliveMessage;
  ParseXLogData := parseXLogData;
  Parse := parse;
  DataTypeForOID := dataTypeForOID;
  GenericText := text
|}.

(** Encoders, to write frames down in examples. *)
Definition byteOf (z : Z) : byte :=
  match Byte.of_N (Z.to_N (z mod 256)) with
  | Some b => b
  | None => "000"%byte
  end.

Fixpoint enc (n : nat) (z : Z) : list byte :=
  match n with
  | O => []
  | S n => enc n (z / 256) ++ [byteOf z]
  end.

Definition cstr (s : string) : list byte :=
  String.list_byte_of_string s ++ ["000"%byte].

Definition keepalive (serverWALEnd : Z) (replyRequested : bool) : list byte :=
  "k"%byte :: enc 8 serverWALEnd ++ enc 8 0 ++ [if replyRequested then "001"%byte else "000"%byte].

Definition xlogData (walStart : Z) (payload : list byte) : list byte :=
  "w"%byte :: enc 8 walStart ++ enc 8 0 ++ enc 8 0 ++ payload.

Definition relation (id : Z) (namespace name : string) (columns : list (string * Z))
  : list byte :=
  "R"%byte :: enc 4 id ++ cstr namespace ++ cstr name ++ ["d"%byte]
    ++ enc 2 (Z.of_nat (length columns))
    ++ concat (map (fun c => "000"%byte :: cstr (fst c) ++ enc 4 (snd c) ++ enc 4 (2 ^ 32 - 1))
                   columns).

Definition tuple (columns : list Tup.Column) : list byte :=
  enc 2 (Z.of_nat (length columns))
    ++ concat (map (fun c =>
         match Tup.DataType c with
         | "t"%byte | "b"%byte =>
             Tup.DataType c :: enc 4 (Z.of_nat (length (Tup.Data c))) ++ Tup.Data c
         | tag => [tag]
         end) columns).

Definition insert (id : Z) (columns : list Tup.Column) : list byte :=
  "I"%byte :: enc 4 id ++ "N"%byte :: tuple columns.

Definition delete (id : Z) (columns : list Tup.Column) : list byte :=
  "D"%byte :: enc 4 id ++ "O"%byte :: tuple columns.

Definition truncate (ids : list Z) : list byte :=
  "T"%byte :: enc 4 (Z.of_nat (length ids)) ++ "000"%byte
    :: concat (map (enc 4) ids).

Definition begin (finalLSN xid : Z) : list byte :=
  "B"%byte :: enc 8 finalLSN ++ enc 8 0 ++ enc 4 xid.

Definition Null : Tup.Column := {| Tup.DataType := "n"; Tup.Data := [] |}.
Definition Toast : Tup.Column := {| Tup.DataType := "u"; Tup.Data := [] |}.
Definition Text (s : string) : Tup.Column :=
  {| Tup.DataType := "t"; Tup.Data := String.list_byte_of_string s |}.

End Wire.

(** * Vocabulary of the properties *)

(** The call that sends a standby status update. *)
Definition isSend (ev : Event) : bool :=
  match ev with
  | SendStandbyStatusUpdate _ => true
  | _ => false
  end.

(** Whether a status update was sent among the events. *)
Definition sends (evs : list Event) : bool := existsb isSend evs.

(** A session under way, to run the loop on concrete frames. *)
Module Demo.

(** A tick that delivers a CopyData frame with no status update failing. *)
Definition frame (t : Time) (Data : list byte) : Tick :=
  {| now := t; sendError := None; nowAfterSend := t;
     received := ReceiveOk (CopyData Data) |}.

(** The table of the program: [trial(id int, name text)]. *)
Definition trial : RelationMessage :=
  {| RelationID := 1; Namespace := "public"; RelationName := "trial";
     ReplicaIdentity := "d";
     Columns := [ {| Rel.Flags := 0; Rel.Name := "id"; Rel.DataType := 23;
                     Rel.TypeModifier := -1 |};
                  {| Rel.Flags := 0; Rel.Name := "name"; Rel.DataType := 25;
                     Rel.TypeModifier := -1 |} ] |}.

(** A session that has streamed up to position 121, a minute in, with
    [trial] in the cache. *)
Definition session : State :=
  {| clientXLogPos := 121;
     nextStandbyMessageDeadline := 70 * Second;
     relations := {[ 1 := trial ]} |}.

(** The state a computation yields, when it yields one. *)
Definition stateAfter (r : M State) : State :=
  match snd r with
  | Ok st => st
  | Stop _ => session
  end.

End Demo.

(** The outcomes of the switch: the row unchanged, the row with the column's
    name bound, or the fatal decoding error; its events are prints. *)
Inductive ColumnOutcome (L : Library) (rc : Rel.Column) (col : Tup.Column)
    (values : Row) : M Row -> Prop :=
| column_null :
    Tup.DataType col = "n"%byte ->
    ColumnOutcome L rc col values ([], Ok (<[Rel.Name rc := GoNil]> values))
| column_toast :
    Tup.DataType col = "u"%byte ->
    ColumnOutcome L rc col values ([Print_data (Tup.Data col)], Ok values)
| column_text val :
    Tup.DataType col = "t"%byte ->
    decodeTextColumnData L (Tup.Data col) (Rel.DataType rc) = inr val ->
    ColumnOutcome L rc col values ([], Ok (<[Rel.Name rc := val]> values))
| column_text_error err :
    Tup.DataType col = "t"%byte ->
    decodeTextColumnData L (Tup.Data col) (Rel.DataType rc) = inl err ->
    ColumnOutcome L rc col values
      ([], Stop (LogFatal (error_decoding_column_data err)))
| column_binary :
    Tup.DataType col = "b"%byte ->
    ColumnOutcome L rc col values ([Print_byte_data (Tup.Data col)], Ok values)
| column_other :
    Tup.DataType col <> "n"%byte -> Tup.DataType col <> "u"%byte ->
    Tup.DataType col <> "t"%byte -> Tup.DataType col <> "b"%byte ->
    ColumnOutcome L rc col values ([], Ok values).

(** The computation writes no event that satisfies [P]. *)
Definition silent (P : Event -> bool) {A} (c : M A) : Prop :=
  existsb P (fst c) = false.

(** A predicate on events that no print of column data satisfies. *)
Definition ignoresPrints (P : Event -> bool) : Prop :=
  (forall d, P (Print_data d) = false) /\ (forall d, P (Print_byte_data d) = false).

(** The frame of this iteration is a keepalive with the reply-requested
    flag set. *)
Definition replyRequested (L : Library) (tk : Tick) : bool :=
  match received tk with
  | ReceiveOk (CopyData (b :: buf)) =>
      Byte.eqb b PrimaryKeepaliveMessageByteID &&
      match ParsePrimaryKeepaliveMessage L buf with
      | inr pkm => ReplyRequested pkm
      | inl _ => false
      end
  | _ => false
  end.

(** What an observer of the session knows, without looking at the
    variables of the program: when the last status update went out (the
    session's start, before the first one), and whether the peer has asked
    for a reply since. *)
Record History : Type := {
  lastSend : Time;
  replyPending : bool
}.

(** The update is sent at the top of an iteration, the frame is received
    after it. *)
Definition observe (L : Library) (h : History) (tk : Tick) (evs : list Event)
  : History :=
  {| lastSend := if sends evs then nowAfterSend tk else lastSend h;
     replyPending := replyRequested L tk || (negb (sends evs) && replyPending h) |}.

(** The state and the history after the loop has gone round once for each
    tick; [None] when it has left before. *)
Fixpoint rounds (L : Library) (ticks : list Tick) (st : State) (h : History)
  : option (State * History) :=
  match ticks with
  | [] => Some (st, h)
  | tk :: ticks =>
      match iteration L st tk with
      | (evs, Ok st') => rounds L ticks st' (observe L h tk evs)
      | (_, Stop _) => None
      end
  end.

(** The deadline held by the program, read off the history. *)
Definition scheduled (st : State) (h : History) : Prop :=
  nextStandbyMessageDeadline st =
    if replyPending h then zeroTime else lastSend h + standbyMessageTimeout.

(** What the iteration does with a chunk once [Parse] has succeeded: the two
    log lines, the type switch, and the assignment of line 254. *)
Definition afterParse (L : Library) (st : State) (xld : XLogData) (m : Message)
  : M State :=
  emit (Log_XLogData xld) ;;
  emit (Log_receive_logical m) ;;
  do relations' <- dispatch L (relations st) m;
  ret {| clientXLogPos := LSN_add (WALStart xld) (Z.of_nat (length (WALData xld)));
         nextStandbyMessageDeadline := nextStandbyMessageDeadline st;
         relations := relations' |}.

(** What a tuple column puts in the row: nil for a null column, the decoded
    value for a text column, nothing for any other. *)
Definition bindingOf (L : Library) (rc : Rel.Column) (col : Tup.Column)
  : option GoValue :=
  if Byte.eqb (Tup.DataType col) "n" then Some GoNil
  else if Byte.eqb (Tup.DataType col) "t" then
    match decodeTextColumnData L (Tup.Data col) (Rel.DataType rc) with
    | inr val => Some val
    | inl _ => None
    end
  else None.

(** What is printed for a tuple column: the data of an unchanged TOAST
    column and of a binary column. *)
Definition printOf (col : Tup.Column) : option Event :=
  if Byte.eqb (Tup.DataType col) "u" then Some (Print_data (Tup.Data col))
  else if Byte.eqb (Tup.DataType col) "b" then Some (Print_byte_data (Tup.Data col))
  else None.

(** The row over the leading columns of a schema: the tuple's columns are
    paired with the schema's by position, and each pair in turn binds the
    name of the schema column to what the tuple column puts in the row. *)
Definition rowOver (L : Library) (schema : list Rel.Column) (cols : TupleData)
  : Row :=
  fold_left (fun values pair =>
               match bindingOf L pair.1 pair.2 with
               | Some val => <[Rel.Name pair.1 := val]> values
               | None => values
               end)
            (zip schema cols) ∅.

(** Every text column of the tuple is accepted by the decoder of the type
    of the schema column at its position. *)
Definition decodes (L : Library) (schema : list Rel.Column) (cols : TupleData)
  : Prop :=
  forall i col rc,
    cols !! i = Some col -> schema !! i = Some rc ->
    Tup.DataType col = "t"%byte ->
    exists val, decodeTextColumnData L (Tup.Data col) (Rel.DataType rc) = inr val.

(** How the loop ends when [Parse] returns no message: a panic is not
    recovered, an error goes to [log.Fatalf] (lines 144-146). *)
Definition undecoded (f : Failure) : Exit :=
  match f with
  | Panics p => Panicked p
  | Errors err => LogFatal (Parse_logical_replication_message err)
  end.

(** What the type switch prints for a Delete or a Truncate message. *)
Definition serialized (m : Message) : option Event :=
  match m with
  | MDelete relationID _ OldTuple => Some (Print_delete relationID OldTuple)
  | MTruncate _ _ RelationIDs => Some (Print_truncate RelationIDs)
  | _ => None
  end.

(** Some text column of the tuple, within the schema, is rejected by the
    decoder of its declared type. *)
Definition malformed (L : Library) (rel : RelationMessage) (cols : TupleData)
  : Prop :=
  exists i col rc err,
    cols !! i = Some col /\ Columns rel !! i = Some rc /\
    Tup.DataType col = "t"%byte /\
    decodeTextColumnData L (Tup.Data col) (Rel.DataType rc) = inl err.

(** The message is a row change for relation [id] whose decoding reaches a
    malformed text column: an Insert with one in its tuple, or an Update
    with one in its old tuple, or in its new tuple when the old tuple, if
    any, has no more columns than the schema. *)
Definition rejects (L : Library) (rel : RelationMessage) (id : Z) (m : Message)
  : Prop :=
  match m with
  | MInsert relationID Tuple => relationID = id /\ malformed L rel Tuple
  | MUpdate relationID _ OldTuple NewTuple =>
      relationID = id /\
      match OldTuple with
      | Some t =>
          malformed L rel t \/
          ((length t <= length (Columns rel))%nat /\ malformed L rel NewTuple)
      | None => malformed L rel NewTuple
      end
  | _ => False
  end.

(** The row events of the program. *)
Definition isRow (ev : Event) : bool :=
  match ev with
  | Log_insert _ _ _ | Log_update _ _ _ _ => true
  | _ => false
  end.

(** The positions streaming was asked to start from. *)
Definition starts (evs : list Event) : list LSN :=
  omap (fun ev => match ev with
                  | StartReplication _ startLSN _ => Some startLSN
                  | _ => None
                  end) evs.

(** The call that creates the replication slot. *)
Definition isCreateSlot (ev : Event) : bool :=
  match ev with
  | CreateReplicationSlot _ _ _ => true
  | _ => false
  end.

(** Two answers of the server to the bootstrap. *)
Module Boot.

(** The server reports position 100. *)
Definition sysident : IdentifySystemResult :=
  {| SystemID := "7000000000000000001"; Timeline := 1; XLogPos := 100;
     DBName := "postgres" |}.

(** The slot exists already, confirmed up to position 5. *)
Definition existing : Startup :=
  {| connectError := None; dropPublicationError := None;
     createPublicationError := None; identifySystem := inr sysident;
     slotQuery := inr [ {| Rows := [ {| slot_name := "pglogrepl_demo";
                                         confirmed_flush_lsn := 5 |} ] |} ];
     createSlotError := None; startReplicationError := None;
     startNow := 1000 * Second |}.

(** The lookup returns nothing. *)
Definition absent : Startup :=
  {| connectError := None; dropPublicationError := None;
     createPublicationError := None; identifySystem := inr sysident;
     slotQuery := inr [];
     createSlotError := None; startReplicationError := None;
     startNow := 1000 * Second |}.

End Boot.

(** The positions carried by the status updates among the events. *)
Definition sentPositions (evs : list Event) : list LSN :=
  omap (fun ev => match ev with
                  | SendStandbyStatusUpdate pos => Some pos
                  | _ => None
                  end) evs.

(** The receive of this iteration timed out and its status update, if one
    is due, goes through. *)
Definition timesOut (tk : Tick) : Prop :=
  sendError tk = None /\ exists err, received tk = ReceiveError true err.

(** The relation a row-change message names, and the tuples the per-column
    loop walks over for it, in that order. *)
Definition relationOf (m : Message) : option Z :=
  match m with
  | MInsert relationID _ | MUpdate relationID _ _ _ => Some relationID
  | _ => None
  end.

Definition tuplesOf (m : Message) : list TupleData :=
  match m with
  | MInsert _ Tuple => [Tuple]
  | MUpdate _ _ (Some OldTuple) NewTuple => [OldTuple; NewTuple]
  | MUpdate _ _ None NewTuple => [NewTuple]
  | _ => []
  end.

(** Where the chunk of this iteration ends, when its frame is an XLogData
    frame whose header parses. *)
Definition chunkEnd (L : Library) (tk : Tick) : option LSN :=
  match received tk with
  | ReceiveOk (CopyData (b :: buf)) =>
      if Byte.eqb b XLogDataByteID then
        match ParseXLogData L buf with
        | inr xld => Some (LSN_add (WALStart xld) (Z.of_nat (length (WALData xld))))
        | inl _ => None
        end
      else None
  | _ => None
  end.

(** The end of the last chunk among the ticks, or [pos] when there is none. *)
Definition lastChunkEnd (L : Library) (ticks : list Tick) (pos : LSN) : LSN :=
  fold_left (fun p tk => default p (chunkEnd L tk)) ticks pos.

(** No text decoder of its own is registered for the OID. *)
Definition unregistered (L : Library) (oid : Z) : Prop :=
  match DataTypeForOID L oid with
  | Some dt => Value dt = None
  | None => True
  end.

(** * Properties *)

(** ** Sequencing *)

Lemma bind_Ok {A B} (c : M A) (k : A -> M B) evs b :
  bind c k = (evs, Ok b) ->
  exists evs1 a evs2,
    c = (evs1, Ok a) /\ k a = (evs2, Ok b) /\ evs = evs1 ++ evs2.
Proof.
  unfold bind. destruct c as [evs1 [a|e]]; [|discriminate].
  destruct (k a) as [evs2 r] eqn:Hk. intros [= <- ->]. eauto 6.
Qed.

Lemma bind_Stop {A B} (c : M A) (k : A -> M B) evs e :
  bind c k = (evs, Stop e) ->
  c = (evs, Stop e) \/
  exists evs1 a evs2,
    c = (evs1, Ok a) /\ k a = (evs2, Stop e) /\ evs = evs1 ++ evs2.
Proof.
  unfold bind. destruct c as [evs1 [a|e']].
  - destruct (k a) as [evs2 r] eqn:Hk. intros [= <- ->]. right. eauto 6.
  - intros [= <- <-]. by left.
Qed.

Lemma bind_of_Ok {A B} (c : M A) (k : A -> M B) evs a :
  c = (evs, Ok a) -> bind c k = (evs ++ fst (k a), snd (k a)).
Proof. intros ->. unfold bind. by destruct (k a). Qed.

Lemma bind_of_Stop {A B} (c : M A) (k : A -> M B) evs e :
  c = (evs, Stop e) -> bind c k = (evs, Stop e).
Proof. by intros ->. Qed.

(** ** The status update at the top of the loop *)

Lemma sends_app evs1 evs2 : sends (evs1 ++ evs2) = sends evs1 || sends evs2.
Proof. apply existsb_app. Qed.

Lemma statusUpdate_sends st tk :
  sends (fst (statusUpdate st tk)) = After (now tk) (nextStandbyMessageDeadline st).
Proof.
  unfold statusUpdate. destruct (After _ _); [|done].
  by destruct (sendError tk).
Qed.

Lemma statusUpdate_Ok st tk evs st' :
  statusUpdate st tk = (evs, Ok st') ->
  clientXLogPos st' = clientXLogPos st /\
  relations st' = relations st /\
  nextStandbyMessageDeadline st' =
    (if After (now tk) (nextStandbyMessageDeadline st)
     then nowAfterSend tk + standbyMessageTimeout
     else nextStandbyMessageDeadline st) /\
  evs = (if After (now tk) (nextStandbyMessageDeadline st)
         then [SendStandbyStatusUpdate (clientXLogPos st); Log_sent_standby_status]
         else []).
Proof.
  unfold statusUpdate. destruct (After _ _).
  - destruct (sendError tk); [discriminate|]. by intros [= <- <-].
  - by intros [= <- <-].
Qed.

Lemma statusUpdate_total st tk :
  sendError tk = None -> exists evs st', statusUpdate st tk = (evs, Ok st').
Proof.
  intros Hs. unfold statusUpdate. rewrite Hs. destruct (After _ _); simpl; eauto.
Qed.

(** ** Frames *)

Lemma iteration_CopyData L st tk Data evs0 st1 :
  received tk = ReceiveOk (CopyData Data) ->
  statusUpdate st tk = (evs0, Ok st1) ->
  iteration L st tk =
    (evs0 ++ fst (handleCopyData L st1 Data), snd (handleCopyData L st1 Data)).
Proof.
  intros Hr Hs. unfold iteration. rewrite (bind_of_Ok _ _ _ _ Hs), Hr. done.
Qed.

Lemma handleCopyData_keepalive L st buf :
  handleCopyData L st (PrimaryKeepaliveMessageByteID :: buf) = handleKeepalive L st buf.
Proof. done. Qed.

Lemma handleCopyData_XLogData L st buf :
  handleCopyData L st (XLogDataByteID :: buf) = handleXLogData L st buf.
Proof. done. Qed.

Lemma handleKeepalive_Ok L st buf evs st' :
  handleKeepalive L st buf = (evs, Ok st') ->
  exists pkm,
    ParsePrimaryKeepaliveMessage L buf = inr pkm /\
    st' = (if ReplyRequested pkm then set_deadline st zeroTime else st).
Proof.
  unfold handleKeepalive. destruct (ParsePrimaryKeepaliveMessage L buf) as [err|pkm];
    [discriminate|].
  exists pkm. split; [done|]. destruct (ReplyRequested pkm); simpl in *; congruence.
Qed.

Lemma handleXLogData_Ok L st buf evs st' :
  handleXLogData L st buf = (evs, Ok st') ->
  exists xld,
    ParseXLogData L buf = inr xld /\
    clientXLogPos st' = LSN_add (WALStart xld) (Z.of_nat (length (WALData xld))) /\
    nextStandbyMessageDeadline st' = nextStandbyMessageDeadline st.
Proof.
  unfold handleXLogData. destruct (ParseXLogData L buf) as [err|xld]; [discriminate|].
  intros H. exists xld. split; [done|].
  apply bind_Ok in H as (? & [] & ? & _ & H & _).
  destruct (Parse L (WALData xld)) as [[p|err]|m]; [discriminate..|].
  apply bind_Ok in H as (? & [] & ? & _ & H & _).
  apply bind_Ok in H as (? & rels & ? & _ & [= _ <-] & _). done.
Qed.

(** Only two kinds of frame can change the state at all. *)
Lemma handleCopyData_Ok L st Data evs st' :
  handleCopyData L st Data = (evs, Ok st') ->
  (exists buf, Data = PrimaryKeepaliveMessageByteID :: buf /\
               handleKeepalive L st buf = (evs, Ok st')) \/
  (exists buf, Data = XLogDataByteID :: buf /\
               handleXLogData L st buf = (evs, Ok st')) \/
  (exists b buf, Data = b :: buf /\
                 Byte.eqb b PrimaryKeepaliveMessageByteID = false /\
                 Byte.eqb b XLogDataByteID = false /\ st' = st).
Proof.
  destruct Data as [|b buf]; [discriminate|]. simpl.
  destruct (Byte.eqb b PrimaryKeepaliveMessageByteID) eqn:Hk.
  { apply Byte.byte_dec_bl in Hk as ->. eauto. }
  destruct (Byte.eqb b XLogDataByteID) eqn:Hw.
  { apply Byte.byte_dec_bl in Hw as ->. eauto. }
  intros [= _ <-]. right. right. eauto 6.
Qed.

Lemma iteration_Ok L st tk evs st' :
  iteration L st tk = (evs, Ok st') ->
  exists evs0 st1 evs1,
    statusUpdate st tk = (evs0, Ok st1) /\ evs = evs0 ++ evs1 /\
    (st' = st1 \/
     exists Data, received tk = ReceiveOk (CopyData Data) /\
                  handleCopyData L st1 Data = (evs1, Ok st')).
Proof.
  unfold iteration. intros H.
  apply bind_Ok in H as (evs0 & st1 & evs1 & Hs & H & ->).
  exists evs0, st1, evs1. split; [done|]. split; [done|].
  destruct (received tk) as [timeout err|[text|Data|ty]].
  - destruct timeout; [|discriminate]. left. by injection H.
  - discriminate.
  - right. eauto.
  - left. by injection H.
Qed.

(** Claim C9.  An iteration that receives a primary keepalive and goes round
    again leaves the confirmed position [clientXLogPos] and the relation
    cache as they were, whatever the reply-requested flag; and an iteration
    after which the confirmed position differs has received an XLogData
    frame. *)
Theorem keepalive_preserves_position (L : Library) (st st' : State) (tk : Tick)
    (evs : list Event) :
  iteration L st tk = (evs, Ok st') ->
  (forall buf,
     received tk = ReceiveOk (CopyData (PrimaryKeepaliveMessageByteID :: buf)) ->
     clientXLogPos st' = clientXLogPos st /\ relations st' = relations st) /\
  (clientXLogPos st' <> clientXLogPos st ->
   exists buf, received tk = ReceiveOk (CopyData (XLogDataByteID :: buf))).
Proof.
  intros H. apply iteration_Ok in H as (evs0 & st1 & evs1 & Hs & -> & H).
  apply statusUpdate_Ok in Hs as (Hpos & Hrel & _ & _).
  split.
  - intros buf Hr. destruct H as [->|(Data & Hr' & H)]; [done|].
    rewrite Hr in Hr'. injection Hr' as <-.
    rewrite handleCopyData_keepalive in H.
    apply handleKeepalive_Ok in H as (pkm & _ & ->).
    destruct (ReplyRequested pkm); simpl; done.
  - intros Hne. destruct H as [->|(Data & Hr & H)]; [done|].
    apply handleCopyData_Ok in H
      as [(buf & -> & H)|[(buf & -> & H)|(b & buf & _ & _ & _ & ->)]].
    + apply handleKeepalive_Ok in H as (pkm & _ & ->).
      destruct (ReplyRequested pkm); simpl in Hne; congruence.
    + eauto.
    + congruence.
Qed.

(** ** The program on concrete frames *)

Example relation_frame_parses :
  Wire.parse (Wire.relation 1 "public" "trial" [("id"%string, 23); ("name"%string, 25)])
  = inr (MRelation Demo.trial).
Proof. reflexivity. Qed.

(** The scenario of the specification: after the schema of [trial], an
    insert of [("7", "alice")] is logged as the row [{id: 7, name: alice}]. *)
Example insert_alice :
  fst (iteration Wire.library Demo.session
         (Demo.frame (61 * Second)
            (Wire.xlogData 121 (Wire.insert 1 [Wire.Text "7"; Wire.Text "alice"]))))
    !! 2%nat
  = Some (Log_insert "public" "trial"
            (<["id"%string := GoInt 7]>
               (<["name"%string := GoString (String.list_byte_of_string "alice")]> ∅))).
Proof. vm_compute. reflexivity. Qed.

(** ** The confirmed position *)

Lemma iteration_XLogData L st tk buf evs st' :
  received tk = ReceiveOk (CopyData (XLogDataByteID :: buf)) ->
  iteration L st tk = (evs, Ok st') ->
  exists evs0 st1 evs1,
    statusUpdate st tk = (evs0, Ok st1) /\ evs = evs0 ++ evs1 /\
    handleXLogData L st1 buf = (evs1, Ok st').
Proof.
  intros Hr H. unfold iteration in H.
  apply bind_Ok in H as (evs0 & st1 & evs1 & Hs & H & ->).
  rewrite Hr in H. exists evs0, st1, evs1. by rewrite handleCopyData_XLogData in H.
Qed.

(** Claim C1, as amended.  After an XLogData chunk has been processed, the
    confirmed position is the chunk's [WALStart] plus the length of its
    payload, modulo 2^64, whatever it was before; so it has not decreased
    exactly when the previous position is at most that sum. *)
Theorem position_after_chunk (L : Library) (st st' : State) (tk : Tick)
    (buf : list byte) (xld : XLogData) (evs : list Event) :
  received tk = ReceiveOk (CopyData (XLogDataByteID :: buf)) ->
  ParseXLogData L buf = inr xld ->
  iteration L st tk = (evs, Ok st') ->
  clientXLogPos st' = LSN_add (WALStart xld) (Z.of_nat (length (WALData xld))) /\
  (clientXLogPos st <= clientXLogPos st' <->
   clientXLogPos st <= LSN_add (WALStart xld) (Z.of_nat (length (WALData xld)))).
Proof.
  intros Hr Hx H.
  apply (iteration_XLogData _ _ _ _ _ _ Hr) in H as (evs0 & st1 & evs1 & _ & _ & H).
  apply handleXLogData_Ok in H as (xld' & Hx' & Hpos & _).
  rewrite Hx in Hx'. injection Hx' as <-. rewrite Hpos. done.
Qed.

(** A chunk that starts at 200 and carries a 21-byte Begin message moves the
    position from 121 to 221. *)
Lemma position_after_chunk_witness :
  let tk := Demo.frame (61 * Second) (Wire.xlogData 200 (Wire.begin 5 6)) in
  let st' := Demo.stateAfter (iteration Wire.library Demo.session tk) in
  clientXLogPos st' = LSN_add 200 21 /\
  (clientXLogPos Demo.session <= clientXLogPos st' <->
   clientXLogPos Demo.session <= LSN_add 200 21).
Proof.
  intros tk st'.
  apply (position_after_chunk Wire.library Demo.session st' tk
           (Wire.enc 8 200 ++ Wire.enc 8 0 ++ Wire.enc 8 0 ++ Wire.begin 5 6)
           {| WALStart := 200; ServerWALEnd := 0; ServerTime := 0;
              WALData := Wire.begin 5 6 |}
           (fst (iteration Wire.library Demo.session tk))).
  - reflexivity.
  - reflexivity.
  - vm_compute. reflexivity.
Defined.

(** Claim C1 fails as stated: of two chunks processed one after the other,
    the second, which starts at 10, takes the position from 221 down to 31,
    not to the maximum of the two. *)
Lemma position_regresses :
  let tk1 := Demo.frame (61 * Second) (Wire.xlogData 200 (Wire.begin 5 6)) in
  let tk2 := Demo.frame (62 * Second) (Wire.xlogData 10 (Wire.begin 5 6)) in
  let st1 := Demo.stateAfter (iteration Wire.library Demo.session tk1) in
  let st2 := Demo.stateAfter (iteration Wire.library st1 tk2) in
  snd (loop Wire.library [tk1; tk2] Demo.session) = Ok st2 /\
  clientXLogPos st1 = 221 /\
  clientXLogPos st2 = 31 /\
  clientXLogPos st2 < clientXLogPos st1 /\
  clientXLogPos st2 <> Z.max (clientXLogPos st1) (10 + 21).
Proof. vm_compute. repeat split; congruence. Qed.

(** A keepalive that asks for a reply, received at second 61. *)
Lemma keepalive_preserves_position_witness :
  let tk := Demo.frame (61 * Second) (Wire.keepalive 300 true) in
  let st' := Demo.stateAfter (iteration Wire.library Demo.session tk) in
  (forall buf,
     received tk = ReceiveOk (CopyData (PrimaryKeepaliveMessageByteID :: buf)) ->
     clientXLogPos st' = clientXLogPos Demo.session /\
     relations st' = relations Demo.session) /\
  (clientXLogPos st' <> clientXLogPos Demo.session ->
   exists buf, received tk = ReceiveOk (CopyData (XLogDataByteID :: buf))).
Proof.
  intros tk st'.
  apply (keepalive_preserves_position Wire.library Demo.session st' tk
           (fst (iteration Wire.library Demo.session tk))).
  vm_compute. reflexivity.
Defined.

Example keepalive_with_reply_request :
  nextStandbyMessageDeadline
    (Demo.stateAfter (iteration Wire.library Demo.session
                        (Demo.frame (61 * Second) (Wire.keepalive 300 true))))
  = zeroTime.
Proof. reflexivity. Qed.

(** ** The switch on the column tag *)

Lemma decodeColumn_eq L rc col values :
  decodeColumn L rc col values =
    if Byte.eqb (Tup.DataType col) "n" then ret (<[Rel.Name rc := GoNil]> values)
    else if Byte.eqb (Tup.DataType col) "u" then
      emit (Print_data (Tup.Data col)) ;; ret values
    else if Byte.eqb (Tup.DataType col) "t" then
      match decodeTextColumnData L (Tup.Data col) (Rel.DataType rc) with
      | inl err => fatal (error_decoding_column_data err)
      | inr val => ret (<[Rel.Name rc := val]> values)
      end
    else if Byte.eqb (Tup.DataType col) "b" then
      emit (Print_byte_data (Tup.Data col)) ;; ret values
    else ret values.
Proof. unfold decodeColumn. destruct (Tup.DataType col); reflexivity. Qed.

Lemma decodeColumn_outcome L rc col values :
  ColumnOutcome L rc col values (decodeColumn L rc col values).
Proof.
  rewrite decodeColumn_eq.
  destruct (Byte.eqb _ "n") eqn:Hn.
  { apply Byte.byte_dec_bl in Hn. by constructor. }
  destruct (Byte.eqb _ "u") eqn:Hu.
  { apply Byte.byte_dec_bl in Hu. by constructor. }
  destruct (Byte.eqb _ "t") eqn:Ht.
  { apply Byte.byte_dec_bl in Ht.
    destruct (decodeTextColumnData _ _ _) eqn:Hd; by econstructor. }
  destruct (Byte.eqb _ "b") eqn:Hb.
  { apply Byte.byte_dec_bl in Hb. by constructor. }
  apply Byte.eqb_false in Hn, Hu, Ht, Hb. by constructor.
Qed.

(** ** Which events a computation can write *)

Lemma silent_ret P {A} (a : A) : silent P (ret a).
Proof. done. Qed.

Lemma silent_stop P {A} (e : Exit) : silent P (([], Stop e) : M A).
Proof. done. Qed.

Lemma silent_emit P ev : P ev = false -> silent P (emit ev).
Proof. unfold silent. simpl. by intros ->. Qed.

Lemma silent_bind P {A B} (c : M A) (k : A -> M B) :
  silent P c -> (forall a, silent P (k a)) -> silent P (bind c k).
Proof.
  unfold silent, bind. destruct c as [evs [a|e]]; simpl; [|done].
  intros Hc Hk. specialize (Hk a). destruct (k a) as [evs' r]. simpl in *.
  by rewrite existsb_app, Hc, Hk.
Qed.

Create HintDb silent.
#[local] Hint Resolve silent_ret silent_stop silent_emit silent_bind : silent.

Lemma decodeColumn_silent P L rc col values :
  ignoresPrints P -> silent P (decodeColumn L rc col values).
Proof.
  intros [Hd Hb]. destruct (decodeColumn_outcome L rc col values);
    unfold silent; simpl; rewrite ?Hd, ?Hb; done.
Qed.

Lemma decodeColumns_silent P L rel cols : forall idx values,
  ignoresPrints P -> silent P (decodeColumns L rel idx cols values).
Proof.
  induction cols as [|col rest IH]; intros idx values HP; simpl.
  - apply silent_ret.
  - destruct (Columns rel !! idx) as [rc|]; [|apply silent_stop].
    apply silent_bind; [by apply decodeColumn_silent|]. intros. by apply IH.
Qed.

Lemma ignoresPrints_isSend : ignoresPrints isSend.
Proof. done. Qed.

Lemma dispatch_quiet L rels m : silent isSend (dispatch L rels m).
Proof.
  pose proof ignoresPrints_isSend as HP.
  destruct m as [m| | |relationID Tuple|relationID tupleType OldTuple NewTuple| | | | |];
    cbn [dispatch]; auto 6 with silent.
  - destruct (rels !! relationID); [|apply silent_stop].
    apply silent_bind; [by apply decodeColumns_silent|]. auto with silent.
  - destruct (rels !! relationID); [|apply silent_stop].
    apply silent_bind; [auto with silent|]. intros _.
    apply silent_bind.
    { destruct OldTuple; [by apply decodeColumns_silent|apply silent_ret]. }
    intros. apply silent_bind; [by apply decodeColumns_silent|]. auto with silent.
Qed.

Lemma handleCopyData_quiet L st Data : silent isSend (handleCopyData L st Data).
Proof.
  destruct Data as [|b buf]; [apply silent_stop|]. simpl.
  destruct (Byte.eqb b _).
  { unfold handleKeepalive. destruct (ParsePrimaryKeepaliveMessage L buf) as [|pkm];
      [apply silent_stop|].
    apply silent_bind; [auto with silent|]. intros. destruct (ReplyRequested pkm);
      apply silent_ret. }
  destruct (Byte.eqb b _); [|apply silent_ret].
  unfold handleXLogData. destruct (ParseXLogData L buf) as [|xld]; [apply silent_stop|].
  apply silent_bind; [auto with silent|]. intros.
  destruct (Parse L (WALData xld)) as [[p|err]|m]; [apply silent_stop..|].
  apply silent_bind; [auto with silent|]. intros.
  apply silent_bind; [apply dispatch_quiet|]. intros. apply silent_ret.
Qed.

(** A status update goes out in an iteration exactly when the clock at the
    top of the loop reads after the deadline. *)
Lemma iteration_sends L st tk :
  sends (fst (iteration L st tk)) = After (now tk) (nextStandbyMessageDeadline st).
Proof.
  rewrite <- statusUpdate_sends. unfold iteration.
  destruct (statusUpdate st tk) as [evs0 [st1|e]] eqn:Hs; [|done].
  rewrite (bind_of_Ok _ _ _ _ eq_refl). simpl. rewrite sends_app.
  replace (sends (fst _)) with false; [by rewrite orb_false_r|].
  symmetry. destruct (received tk) as [timeout err|[text|Data|ty]]; simpl.
  - by destruct timeout.
  - done.
  - apply handleCopyData_quiet.
  - done.
Qed.

(** ** When status updates are sent *)

Lemma iteration_deadline L st tk evs st' :
  iteration L st tk = (evs, Ok st') ->
  nextStandbyMessageDeadline st' =
    if replyRequested L tk then zeroTime
    else if sends evs then nowAfterSend tk + standbyMessageTimeout
    else nextStandbyMessageDeadline st.
Proof.
  intros H. pose proof (iteration_sends L st tk) as Hsend. rewrite H in Hsend.
  simpl in Hsend. rewrite Hsend.
  unfold iteration in H. apply bind_Ok in H as (evs0 & st1 & evs1 & Hs & H & ->).
  apply statusUpdate_Ok in Hs as (_ & _ & Hd & _). rewrite <- Hd. clear Hd Hsend.
  unfold replyRequested.
  destruct (received tk) as [timeout err|[text|Data|ty]].
  - destruct timeout; [|discriminate]. by injection H as _ <-.
  - discriminate.
  - apply handleCopyData_Ok in H
      as [(buf & -> & H)|[(buf & -> & H)|(b & buf & -> & Hk & _ & ->)]].
    + apply handleKeepalive_Ok in H as (pkm & -> & ->). simpl.
      by destruct (ReplyRequested pkm).
    + apply handleXLogData_Ok in H as (xld & _ & _ & ->). done.
    + by rewrite Hk.
  - by injection H as _ <-.
Qed.

Lemma observe_scheduled L st tk evs st' h :
  scheduled st h ->
  iteration L st tk = (evs, Ok st') ->
  scheduled st' (observe L h tk evs).
Proof.
  unfold scheduled. intros Hinv H. rewrite (iteration_deadline _ _ _ _ _ H).
  unfold observe. simpl. destruct (replyRequested L tk); [done|]. simpl.
  destruct (sends evs); simpl; [done|]. by rewrite Hinv.
Qed.

Lemma rounds_scheduled L ticks : forall st h st' h',
  scheduled st h ->
  rounds L ticks st h = Some (st', h') ->
  scheduled st' h'.
Proof.
  induction ticks as [|tk ticks IH]; intros st h st' h' Hinv; simpl.
  - by intros [= <- <-].
  - destruct (iteration L st tk) as [evs [st1|e]] eqn:Hit; [|discriminate].
    apply IH. by eapply observe_scheduled.
Qed.

(** Claim C3.  Take a session whose loop starts at time [start] with the
    deadline one interval later, let it go round for [past], and look at the
    next iteration, [tk].  With the clock reading after Go's zero time, that
    iteration sends a status update if and only if the clock reads after the
    last send (the start, before the first send) plus the interval, or the
    peer has sent a keepalive with the reply-requested flag since; and when
    [tk] itself brings such a keepalive, the iteration that follows it sends
    a status update whatever its clock reading. *)
Theorem status_update_iff_due (L : Library) (start : Time) (pos : LSN)
    (rels : gmap Z RelationMessage) (past : list Tick) (tk : Tick)
    (st : State) (h : History) :
  0 < now tk ->
  rounds L past
    {| clientXLogPos := pos;
       nextStandbyMessageDeadline := start + standbyMessageTimeout;
       relations := rels |}
    {| lastSend := start; replyPending := false |} = Some (st, h) ->
  (sends (fst (iteration L st tk)) = true <->
   lastSend h + standbyMessageTimeout < now tk \/ replyPending h = true) /\
  (replyRequested L tk = true ->
   forall evs st' tk',
     iteration L st tk = (evs, Ok st') -> 0 < now tk' ->
     sends (fst (iteration L st' tk')) = true).
Proof.
  intros Hnow Hrounds.
  assert (scheduled st h) as Hinv.
  { eapply rounds_scheduled; [|exact Hrounds]. done. }
  split.
  - rewrite iteration_sends. unfold After. rewrite Hinv, Z.ltb_lt.
    destruct (replyPending h); unfold zeroTime; [|split; [auto|intros [|]; done]].
    split; auto.
  - intros Hreq evs st' tk' Hit Hnow'.
    rewrite iteration_sends, (iteration_deadline _ _ _ _ _ Hit), Hreq.
    unfold After, zeroTime. by apply Z.ltb_lt.
Qed.

(** ** Chunks whose payload parses *)

Lemma handleXLogData_parsed L st buf xld m :
  ParseXLogData L buf = inr xld ->
  Parse L (WALData xld) = inr m ->
  handleXLogData L st buf = afterParse L st xld m.
Proof. intros Hx Hp. unfold handleXLogData, afterParse. by rewrite Hx, Hp. Qed.

Lemma handleXLogData_undecoded L st buf xld failure :
  ParseXLogData L buf = inr xld ->
  Parse L (WALData xld) = inl failure ->
  handleXLogData L st buf = ([Log_XLogData xld], Stop (undecoded failure)).
Proof.
  intros Hx Hp. unfold handleXLogData. rewrite Hx, Hp. by destruct failure.
Qed.

(** The iteration on an XLogData frame is the status update followed by the
    handling of the chunk in the state the update leaves. *)
Lemma iteration_chunk L st tk buf :
  sendError tk = None ->
  received tk = ReceiveOk (CopyData (XLogDataByteID :: buf)) ->
  exists st1,
    statusUpdate st tk = (fst (statusUpdate st tk), Ok st1) /\
    relations st1 = relations st /\
    iteration L st tk =
      (fst (statusUpdate st tk) ++ fst (handleXLogData L st1 buf),
       snd (handleXLogData L st1 buf)).
Proof.
  intros Hs Hr. destruct (statusUpdate_total st tk Hs) as (evs0 & st1 & Hu).
  exists st1. rewrite Hu. simpl. split; [done|].
  split; [by apply statusUpdate_Ok in Hu as (_ & ? & _)|].
  by rewrite (iteration_CopyData _ _ _ _ _ _ Hr Hu), handleCopyData_XLogData.
Qed.

Lemma loop_Stop L st tk ticks evs e :
  iteration L st tk = (evs, Stop e) -> loop L (tk :: ticks) st = (evs, Stop e).
Proof. intros H. simpl. by rewrite (bind_of_Stop _ _ _ _ H). Qed.

(** Claim C7.  When a chunk carries an Insert whose relation ID is not in
    the relation cache, the loop ends there with the fatal error
    [unknown relation ID], whatever frames would follow; all it has written
    are the lines of the status update, if one was due, and the two log lines
    that precede the lookup: no row, and no column of one. *)
Theorem insert_unknown_relation_is_fatal (L : Library) (st : State) (tk : Tick)
    (ticks : list Tick) (buf : list byte) (xld : XLogData) (relationID : Z)
    (Tuple : TupleData) :
  sendError tk = None ->
  received tk = ReceiveOk (CopyData (XLogDataByteID :: buf)) ->
  ParseXLogData L buf = inr xld ->
  Parse L (WALData xld) = inr (MInsert relationID Tuple) ->
  relations st !! relationID = None ->
  loop L (tk :: ticks) st =
    (fst (statusUpdate st tk)
       ++ [Log_XLogData xld; Log_receive_logical (MInsert relationID Tuple)],
     Stop (LogFatal (unknown_relation_ID relationID))).
Proof.
  intros Hs Hr Hx Hp Hrel.
  destruct (iteration_chunk L st tk buf Hs Hr) as (st1 & _ & Hrel1 & Hit).
  apply loop_Stop. rewrite Hit, (handleXLogData_parsed _ _ _ _ _ Hx Hp).
  unfold afterParse. cbn [dispatch]. by rewrite Hrel1, Hrel.
Qed.

Lemma insert_unknown_relation_is_fatal_witness :
  let tk := Demo.frame (61 * Second) (Wire.xlogData 121 (Wire.insert 7 [Wire.Text "7"])) in
  let next := Demo.frame (62 * Second) (Wire.xlogData 140 (Wire.begin 5 6)) in
  loop Wire.library [tk; next] Demo.session =
    (fst (statusUpdate Demo.session tk)
       ++ [Log_XLogData {| WALStart := 121; ServerWALEnd := 0; ServerTime := 0;
                           WALData := Wire.insert 7 [Wire.Text "7"] |};
           Log_receive_logical (MInsert 7 [Wire.Text "7"])],
     Stop (LogFatal (unknown_relation_ID 7))).
Proof.
  intros tk next.
  apply (insert_unknown_relation_is_fatal Wire.library Demo.session tk [next]
           (Wire.enc 8 121 ++ Wire.enc 8 0 ++ Wire.enc 8 0
              ++ Wire.insert 7 [Wire.Text "7"])).
  - reflexivity.
  - reflexivity.
  - reflexivity.
  - reflexivity.
  - vm_compute. reflexivity.
Defined.

(** A session started at second 1000: a receive that times out five seconds
    in, then a keepalive that asks for a reply; the iteration after that one
    sends although only seven seconds have passed. *)
Lemma status_update_iff_due_witness :
  let start := 1000 * Second in
  let quiet := {| now := start + 5 * Second; sendError := None;
                  nowAfterSend := start + 5 * Second;
                  received := ReceiveError true "timeout" |} in
  let asking := Demo.frame (start + 6 * Second) (Wire.keepalive 300 true) in
  let tk := Demo.frame (start + 7 * Second) (Wire.keepalive 300 true) in
  let st := {| clientXLogPos := 121; nextStandbyMessageDeadline := zeroTime;
               relations := ∅ |} in
  let h := {| lastSend := start; replyPending := true |} in
  (sends (fst (iteration Wire.library st tk)) = true <->
   lastSend h + standbyMessageTimeout < now tk \/ replyPending h = true) /\
  (replyRequested Wire.library tk = true ->
   forall evs st' tk',
     iteration Wire.library st tk = (evs, Ok st') -> 0 < now tk' ->
     sends (fst (iteration Wire.library st' tk')) = true).
Proof.
  intros start quiet asking tk st h.
  apply (status_update_iff_due Wire.library start 121 ∅ [quiet; asking] tk st h).
  - reflexivity.
  - vm_compute. reflexivity.
Defined.

(** Three receives that time out at each deadline over thirty seconds send
    three status updates, all with the same position. *)
Example three_timeouts :
  let start := 1000 * Second in
  let timeout (t : Time) := {| now := t; sendError := None; nowAfterSend := t;
                               received := ReceiveError true "timeout" |} in
  filter (fun ev => isSend ev = true)
    (fst (loop Wire.library
            [timeout (start + 1); timeout (start + 10 * Second + 1);
             timeout (start + 20 * Second + 2); timeout (start + 30 * Second + 3)]
            {| clientXLogPos := 121;
               nextStandbyMessageDeadline := start + standbyMessageTimeout;
               relations := ∅ |}))
  = [SendStandbyStatusUpdate 121; SendStandbyStatusUpdate 121;
     SendStandbyStatusUpdate 121].
Proof. vm_compute. reflexivity. Qed.

(** ** How the per-column loop can end *)

Lemma decodeColumns_Stop L rel cols : forall idx values evs e,
  decodeColumns L rel idx cols values = (evs, Stop e) ->
  (exists err, e = LogFatal (error_decoding_column_data err)) \/
  (exists i, e = Panicked (index_out_of_range i (length (Columns rel))) /\
             (length (Columns rel) <= i < idx + length cols)%nat).
Proof.
  induction cols as [|col rest IH]; intros idx values evs e; simpl.
  - discriminate.
  - destruct (Columns rel !! idx) as [rc|] eqn:Hrc.
    + intros H. apply bind_Stop in H as [H|(evs1 & values' & evs2 & _ & H & _)].
      * left. destruct (decodeColumn_outcome L rc col values); try discriminate.
        injection H as _ <-. eauto.
      * apply IH in H as [H|(i & -> & Hi)]; [by left|]. right. exists i.
        split; [done|lia].
    + intros [= _ <-]. right. exists idx. split; [done|].
      apply lookup_ge_None in Hrc. lia.
Qed.

(** Claim C10.  A chunk that carries a Delete or a Truncate message is
    handled without a lookup in the relation cache: whatever the cache
    holds, the message is printed, the cache stays as it was, the position
    moves to the end of the chunk and the loop goes round again.  The fatal
    error [unknown relation ID] can only come out of the type switch for an
    Insert or an Update message. *)
Theorem delete_truncate_skip_cache (L : Library) (st : State) (tk : Tick)
    (buf : list byte) (xld : XLogData) (m : Message) (printed : Event) :
  sendError tk = None ->
  received tk = ReceiveOk (CopyData (XLogDataByteID :: buf)) ->
  ParseXLogData L buf = inr xld ->
  Parse L (WALData xld) = inr m ->
  serialized m = Some printed ->
  (exists st',
     iteration L st tk =
       (fst (statusUpdate st tk)
          ++ [Log_XLogData xld; Log_receive_logical m; printed], Ok st') /\
     relations st' = relations st /\
     clientXLogPos st' =
       LSN_add (WALStart xld) (Z.of_nat (length (WALData xld)))) /\
  (forall rels m' evs id,
     dispatch L rels m' = (evs, Stop (LogFatal (unknown_relation_ID id))) ->
     (exists Tuple, m' = MInsert id Tuple) \/
     (exists ty OldTuple NewTuple, m' = MUpdate id ty OldTuple NewTuple)).
Proof.
  intros Hs Hr Hx Hp Hser. split.
  - destruct (iteration_chunk L st tk buf Hs Hr) as (st1 & _ & Hrel1 & Hit).
    rewrite Hit, (handleXLogData_parsed _ _ _ _ _ Hx Hp). unfold afterParse.
    destruct m; try discriminate; injection Hser as <-; cbn;
      eexists; (split; [reflexivity|]); simpl; by rewrite Hrel1.
  - intros rels m' evs id H.
    destruct m' as [r| | |relationID Tuple|relationID ty OldTuple NewTuple| | | | |];
      cbn [dispatch] in H; try discriminate.
    + destruct (rels !! relationID) as [rel|]; [|injection H as _ ->; eauto].
      apply bind_Stop in H as [H|(? & ? & ? & _ & H & _)]; [|discriminate].
      apply decodeColumns_Stop in H as [(? & [=])|(? & [=] & _)].
    + destruct (rels !! relationID) as [rel|]; [|injection H as _ ->; eauto 6].
      apply bind_Stop in H as [H|(? & [] & ? & _ & H & _)]; [discriminate|].
      apply bind_Stop in H as [H|(? & ? & ? & _ & H & _)].
      { destruct OldTuple; [|discriminate].
        apply decodeColumns_Stop in H as [(? & [=])|(? & [=] & _)]. }
      apply bind_Stop in H as [H|(? & ? & ? & _ & H & _)]; [|discriminate].
      apply decodeColumns_Stop in H as [(? & [=])|(? & [=] & _)].
Qed.

(** A Delete for relation 7, which the cache of the session does not hold. *)
Lemma delete_truncate_skip_cache_witness :
  let payload := Wire.delete 7 [Wire.Text "7"; Wire.Null] in
  let tk := Demo.frame (61 * Second) (Wire.xlogData 121 payload) in
  let xld := {| WALStart := 121; ServerWALEnd := 0; ServerTime := 0;
                WALData := payload |} in
  let m := MDelete 7 "O" [Wire.Text "7"; Wire.Null] in
  let printed := Print_delete 7 [Wire.Text "7"; Wire.Null] in
  relations Demo.session !! 7 = None /\
  ((exists st',
      iteration Wire.library Demo.session tk =
        (fst (statusUpdate Demo.session tk)
           ++ [Log_XLogData xld; Log_receive_logical m; printed], Ok st') /\
      relations st' = relations Demo.session /\
      clientXLogPos st' =
        LSN_add (WALStart xld) (Z.of_nat (length (WALData xld)))) /\
   (forall rels m' evs id,
      dispatch Wire.library rels m' =
        (evs, Stop (LogFatal (unknown_relation_ID id))) ->
      (exists Tuple, m' = MInsert id Tuple) \/
      (exists ty OldTuple NewTuple, m' = MUpdate id ty OldTuple NewTuple))).
Proof.
  intros payload tk xld m printed. split; [reflexivity|].
  apply (delete_truncate_skip_cache Wire.library Demo.session tk
           (Wire.enc 8 121 ++ Wire.enc 8 0 ++ Wire.enc 8 0 ++ payload) xld m printed);
    reflexivity.
Defined.

Example truncate_unknown_relation :
  snd (iteration Wire.library Demo.session
         (Demo.frame (61 * Second) (Wire.xlogData 121 (Wire.truncate [7; 8]))))
  = Ok {| clientXLogPos := 135;
          nextStandbyMessageDeadline := 70 * Second;
          relations := relations Demo.session |}.
Proof. vm_compute. reflexivity. Qed.

(** ** Payloads that do not parse *)

(** Claim C4, as amended.  When the decoder returns no message for the
    payload of a chunk, the loop does not skip the message: it ends at that
    chunk, having logged it, and no later frame is processed.  It ends with
    the fatal error of [log.Fatalf] when the decoder returned an error, and
    with the panic, which nothing recovers, when the decoder panicked. *)
Theorem undecoded_payload_ends_loop (L : Library) (st : State) (tk : Tick)
    (ticks : list Tick) (buf : list byte) (xld : XLogData) (failure : Failure) :
  sendError tk = None ->
  received tk = ReceiveOk (CopyData (XLogDataByteID :: buf)) ->
  ParseXLogData L buf = inr xld ->
  Parse L (WALData xld) = inl failure ->
  loop L (tk :: ticks) st =
    (fst (statusUpdate st tk) ++ [Log_XLogData xld], Stop (undecoded failure)).
Proof.
  intros Hs Hr Hx Hp.
  destruct (iteration_chunk L st tk buf Hs Hr) as (st1 & _ & _ & Hit).
  apply loop_Stop. by rewrite Hit, (handleXLogData_undecoded _ _ _ _ _ Hx Hp).
Qed.

(** A chunk whose payload starts with the byte [Z], for which there is no
    decoder. *)
Lemma undecoded_payload_ends_loop_witness :
  let payload := ["Z"%byte; "001"%byte; "002"%byte] in
  let tk := Demo.frame (61 * Second) (Wire.xlogData 121 payload) in
  let next := Demo.frame (62 * Second) (Wire.xlogData 124 (Wire.begin 5 6)) in
  let xld := {| WALStart := 121; ServerWALEnd := 0; ServerTime := 0;
                WALData := payload |} in
  let failure :=
    Panics (runtime_panic
      "interface conversion: interface is nil, not pglogrepl.Message") in
  Parse Wire.library payload = inl failure /\
  loop Wire.library [tk; next] Demo.session =
    (fst (statusUpdate Demo.session tk) ++ [Log_XLogData xld],
     Stop (undecoded failure)).
Proof.
  intros payload tk next xld failure. split; [reflexivity|].
  apply (undecoded_payload_ends_loop Wire.library Demo.session tk [next]
           (Wire.enc 8 121 ++ Wire.enc 8 0 ++ Wire.enc 8 0 ++ payload) xld failure);
    reflexivity.
Defined.

(** An Insert cut after its relation ID is an error of the decoder, and
    fatal; one cut inside its tuple makes the decoder panic. *)
Example short_insert_payloads :
  let run payload :=
    snd (iteration Wire.library Demo.session
           (Demo.frame (61 * Second) (Wire.xlogData 121 payload))) in
  run ("I"%byte :: Wire.enc 4 1)
    = Stop (LogFatal (Parse_logical_replication_message "InsertMessage is too short")) /\
  run ("I"%byte :: Wire.enc 4 1 ++ "N"%byte :: Wire.enc 2 1 ++ ["t"%byte])
    = Stop (Panicked Wire.outOfRange) /\
  run [] = Stop (Panicked (index_out_of_range 0 0)).
Proof. repeat split. Qed.

(** Claim C4 fails as stated: for a payload whose leading tag is [Z] the
    decoder reports no error, it panics, and the loop, instead of skipping
    the message, ends there, before the frame that follows. *)
Lemma unknown_tag_stops_loop :
  let payload := ["Z"%byte; "001"%byte; "002"%byte] in
  let tk := Demo.frame (61 * Second) (Wire.xlogData 121 payload) in
  let next := Demo.frame (62 * Second) (Wire.xlogData 124 (Wire.begin 5 6)) in
  Wire.decoderFor "Z" = None /\
  snd (loop Wire.library [tk; next] Demo.session) =
    Stop (Panicked (runtime_panic
      "interface conversion: interface is nil, not pglogrepl.Message")) /\
  ~ (exists st', snd (iteration Wire.library Demo.session tk) = Ok st').
Proof.
  repeat split. intros [st' H]. vm_compute in H. discriminate.
Qed.

(** ** The per-column loop, column by column *)

Lemma decodeColumns_cons_Ok L rel idx col rest values evs values' :
  decodeColumns L rel idx (col :: rest) values = (evs, Ok values') ->
  exists rc evs1 values1 evs2,
    Columns rel !! idx = Some rc /\
    decodeColumn L rc col values = (evs1, Ok values1) /\
    decodeColumns L rel (S idx) rest values1 = (evs2, Ok values') /\
    evs = evs1 ++ evs2.
Proof.
  simpl. destruct (Columns rel !! idx) as [rc|]; [|discriminate].
  intros H. apply bind_Ok in H as (evs1 & values1 & evs2 & H1 & H2 & ->).
  eauto 10.
Qed.

(** A fatal end of the loop comes from a text column that failed to decode. *)
Lemma decodeColumns_fatal L rel cols : forall idx values evs f,
  decodeColumns L rel idx cols values = (evs, Stop (LogFatal f)) ->
  exists i col rc err,
    cols !! i = Some col /\ Columns rel !! (idx + i)%nat = Some rc /\
    Tup.DataType col = "t"%byte /\
    decodeTextColumnData L (Tup.Data col) (Rel.DataType rc) = inl err /\
    f = error_decoding_column_data err.
Proof.
  induction cols as [|col rest IH]; intros idx values evs f; simpl.
  - discriminate.
  - destruct (Columns rel !! idx) as [rc|] eqn:Hrc; [|discriminate].
    intros H. apply bind_Stop in H as [H|(evs1 & values' & evs2 & _ & H & _)].
    + destruct (decodeColumn_outcome L rc col values); try discriminate.
      injection H as _ <-. exists 0%nat, col, rc, err.
      by rewrite Nat.add_0_r.
    + apply IH in H as (i & col' & rc' & err & Hc & Hr & Ht & Hd & ->).
      exists (S i), col', rc', err. by rewrite Nat.add_succ_r.
Qed.

Lemma decodeColumn_decoded L rc col values :
  (Tup.DataType col = "t"%byte ->
   exists val, decodeTextColumnData L (Tup.Data col) (Rel.DataType rc) = inr val) ->
  decodeColumn L rc col values =
    (match printOf col with Some ev => [ev] | None => [] end,
     Ok match bindingOf L rc col with
        | Some val => <[Rel.Name rc := val]> values
        | None => values
        end).
Proof.
  intros Hdec. rewrite decodeColumn_eq. unfold printOf, bindingOf.
  destruct (Byte.eqb _ "n") eqn:Hn.
  { apply Byte.byte_dec_bl in Hn. by rewrite Hn. }
  destruct (Byte.eqb _ "u") eqn:Hu.
  { apply Byte.byte_dec_bl in Hu. by rewrite Hu. }
  destruct (Byte.eqb _ "t") eqn:Ht.
  { apply Byte.byte_dec_bl in Ht. destruct (Hdec Ht) as [val ->]. by rewrite Ht. }
  by destruct (Byte.eqb _ "b").
Qed.

Lemma decodeColumns_decoded L rel cols : forall idx values,
  (idx + length cols <= length (Columns rel))%nat ->
  (forall i col rc,
     cols !! i = Some col -> Columns rel !! (idx + i)%nat = Some rc ->
     Tup.DataType col = "t"%byte ->
     exists val, decodeTextColumnData L (Tup.Data col) (Rel.DataType rc) = inr val) ->
  decodeColumns L rel idx cols values =
    (omap printOf cols,
     Ok (fold_left (fun values pair =>
                      match bindingOf L pair.1 pair.2 with
                      | Some val => <[Rel.Name pair.1 := val]> values
                      | None => values
                      end)
                   (zip (drop idx (Columns rel)) cols) values)).
Proof.
  induction cols as [|col rest IH]; intros idx values Hlen Hdec.
  - simpl. by destruct (drop idx (Columns rel)).
  - simpl in Hlen. simpl.
    destruct (Columns rel !! idx) as [rc|] eqn:Hrc.
    2:{ apply lookup_ge_None in Hrc. lia. }
    rewrite (drop_S _ _ _ Hrc). simpl.
    rewrite (decodeColumn_decoded L rc col values).
    2:{ apply (Hdec 0%nat); [done|by rewrite Nat.add_0_r]. }
    rewrite (bind_of_Ok _ _ _ _ eq_refl), IH.
    + simpl. by destruct (printOf col).
    + lia.
    + intros i col' rc' Hc Hrc'. apply (Hdec (S i)); [done|].
      by rewrite Nat.add_succ_r.
Qed.

(** Claim C5, as amended.  For a tuple that has no more columns than the
    cached schema and whose text columns all decode, a differing number of
    columns raises no error and the schema's column list is indexed within
    its bounds only: the per-column loop ends normally, having printed the
    unchanged TOAST and binary columns in order, and yields the row over the
    leading schema columns, in which each tuple column in turn binds the name
    of the schema column at its position, to nil when it is null and to the
    decoded value when it is text. *)
Theorem tuple_within_schema (L : Library) (rel : RelationMessage)
    (cols : TupleData) :
  (length cols <= length (Columns rel))%nat ->
  decodes L (Columns rel) cols ->
  decodeColumns L rel 0 cols ∅ =
    (omap printOf cols, Ok (rowOver L (Columns rel) cols)).
Proof.
  intros Hlen Hdec. by apply decodeColumns_decoded.
Qed.

(** A tuple [("7", unchanged TOAST)] for a three-column table: the row binds
    [id] only, and the third column of the schema is not looked at. *)
Lemma tuple_within_schema_witness :
  let rel := {| RelationID := 4; Namespace := "public"; RelationName := "docs";
                ReplicaIdentity := "d";
                Columns := [ {| Rel.Flags := 1; Rel.Name := "id"; Rel.DataType := 23;
                                Rel.TypeModifier := -1 |};
                             {| Rel.Flags := 0; Rel.Name := "body"; Rel.DataType := 25;
                                Rel.TypeModifier := -1 |};
                             {| Rel.Flags := 0; Rel.Name := "done"; Rel.DataType := 16;
                                Rel.TypeModifier := -1 |} ] |} in
  let cols := [Wire.Text "7"; Wire.Toast] in
  (length cols < length (Columns rel))%nat /\
  omap printOf cols = [Print_data []] /\
  rowOver Wire.library (Columns rel) cols = <["id"%string := GoInt 7]> ∅ /\
  decodeColumns Wire.library rel 0 cols ∅ =
    (omap printOf cols, Ok (rowOver Wire.library (Columns rel) cols)).
Proof.
  intros rel cols. split; [simpl; lia|]. split; [reflexivity|].
  split; [vm_compute; reflexivity|].
  apply (tuple_within_schema Wire.library rel cols).
  - simpl. lia.
  - intros [|[|i]] col rc Hc Hrc Ht; simpl in *; try discriminate.
    + injection Hc as <-. injection Hrc as <-. by exists (GoInt 7).
    + injection Hc as <-. discriminate.
Defined.

(** Claim C5 fails as stated: no column count is compared.  An Insert with
    three columns for the two-column table [trial] ends in the run-time panic
    of an index out of range, not in a fatal error of the program; one with a
    single column is logged as a row and the loop goes round again. *)
Lemma column_count_not_checked :
  let long := Wire.insert 1 [Wire.Text "7"; Wire.Text "alice"; Wire.Null] in
  let short := Wire.insert 1 [Wire.Text "7"] in
  let run payload :=
    iteration Wire.library Demo.session
      (Demo.frame (61 * Second) (Wire.xlogData 121 payload)) in
  snd (run long) = Stop (Panicked (index_out_of_range 2 2)) /\
  (forall f, snd (run long) <> Stop (LogFatal f)) /\
  fst (run short) !! 2%nat =
    Some (Log_insert "public" "trial" (<["id"%string := GoInt 7]> ∅)) /\
  snd (run short) =
    Ok {| clientXLogPos := 135; nextStandbyMessageDeadline := 70 * Second;
          relations := relations Demo.session |}.
Proof.
  split; [reflexivity|]. split; [intros f H; vm_compute in H; discriminate|].
  split; [vm_compute; reflexivity|]. vm_compute. reflexivity.
Qed.

(** ** Null and unchanged TOAST columns *)

Lemma decodeColumn_other L rc col values evs values' name :
  decodeColumn L rc col values = (evs, Ok values') ->
  name <> Rel.Name rc ->
  values' !! name = values !! name.
Proof.
  intros H Hne.
  destruct (decodeColumn_outcome L rc col values); try discriminate;
    injection H as _ <-; by rewrite ?lookup_insert_ne.
Qed.

(** The loop only binds names of the schema columns it walks over. *)
Lemma decodeColumns_other L rel cols : forall idx values evs values' name,
  decodeColumns L rel idx cols values = (evs, Ok values') ->
  (forall j rc, (idx <= j < idx + length cols)%nat ->
                Columns rel !! j = Some rc -> Rel.Name rc <> name) ->
  values' !! name = values !! name.
Proof.
  induction cols as [|col rest IH]; intros idx values evs values' name H Hfresh.
  - by injection H as _ <-.
  - apply decodeColumns_cons_Ok in H
      as (rc & evs1 & values1 & evs2 & Hrc & H1 & H2 & _).
    rewrite (IH _ _ _ _ name H2).
    + apply (decodeColumn_other _ _ _ _ _ _ _ H1).
      intros ->. apply (Hfresh idx rc); [simpl; lia|done|done].
    + intros j rc' Hj. apply Hfresh. simpl. lia.
Qed.

Lemma distinct_names (rel : RelationMessage) i j rc rc' :
  NoDup (Rel.Name <$> Columns rel) ->
  Columns rel !! i = Some rc -> Columns rel !! j = Some rc' ->
  i <> j -> Rel.Name rc' <> Rel.Name rc.
Proof.
  intros Hnd Hi Hj Hne Heq. apply Hne.
  apply (NoDup_lookup _ i j (Rel.Name rc) Hnd); rewrite list_lookup_fmap.
  - by rewrite Hi.
  - rewrite Hj. simpl. by rewrite Heq.
Qed.

Lemma decodeColumns_null_toast L rel cols : forall idx values0 evs values i col rc,
  NoDup (Rel.Name <$> Columns rel) ->
  decodeColumns L rel idx cols values0 = (evs, Ok values) ->
  cols !! i = Some col ->
  Columns rel !! (idx + i)%nat = Some rc ->
  (Tup.DataType col = "n"%byte -> values !! Rel.Name rc = Some GoNil) /\
  (Tup.DataType col = "u"%byte -> values !! Rel.Name rc = values0 !! Rel.Name rc).
Proof.
  induction cols as [|c rest IH]; intros idx values0 evs values i col rc Hnd H Hc Hrc.
  - done.
  - apply decodeColumns_cons_Ok in H
      as (rc0 & evs1 & values1 & evs2 & Hrc0 & H1 & H2 & _).
    destruct i as [|i].
    + injection Hc as ->. rewrite Nat.add_0_r, Hrc0 in Hrc. injection Hrc as ->.
      assert (values !! Rel.Name rc = values1 !! Rel.Name rc) as ->.
      { apply (decodeColumns_other _ _ _ _ _ _ _ _ H2). intros j rc' Hj Hrc'.
        apply (distinct_names rel idx j); [done..|lia]. }
      destruct (decodeColumn_outcome L rc col values0) as [Ht|Ht|? Ht|? Ht|Ht|Hn Hu];
        try discriminate; injection H1 as _ <-;
        split; intros Htag; try congruence; by rewrite ?lookup_insert_eq.
    + simpl in Hc. rewrite Nat.add_succ_r in Hrc.
      destruct (IH (S idx) values1 evs2 values i col rc Hnd H2 Hc Hrc) as [Hn Hu].
      split; [done|]. intros Htag. rewrite (Hu Htag).
      apply (decodeColumn_other _ _ _ _ _ _ _ H1).
      apply (distinct_names rel idx (S (idx + i))); [done..|lia].
Qed.

(** Claim C6.  In a row that the per-column loop has built for a schema
    whose column names are distinct, a column tagged null has its name bound
    to the nil value, and a column tagged unchanged TOAST has its name not
    bound at all: the two never look the same, and the second is not nil. *)
Theorem null_differs_from_toast (L : Library) (rel : RelationMessage)
    (cols : TupleData) (evs : list Event) (values : Row) :
  NoDup (Rel.Name <$> Columns rel) ->
  decodeColumns L rel 0 cols ∅ = (evs, Ok values) ->
  forall i col rc,
    cols !! i = Some col -> Columns rel !! i = Some rc ->
    (Tup.DataType col = "n"%byte -> values !! Rel.Name rc = Some GoNil) /\
    (Tup.DataType col = "u"%byte -> values !! Rel.Name rc = None).
Proof.
  intros Hnd H i col rc Hc Hrc.
  destruct (decodeColumns_null_toast L rel cols 0 ∅ evs values i col rc Hnd H Hc Hrc)
    as [Hn Hu].
  split; [done|]. intros Htag. by rewrite (Hu Htag), lookup_empty.
Qed.

(** A tuple [(null, unchanged TOAST)] for the table [trial]: [id] is bound
    to nil, [name] is absent from the row. *)
Lemma null_differs_from_toast_witness :
  let cols := [Wire.Null; Wire.Toast] in
  let values : Row := <["id"%string := GoNil]> ∅ in
  decodeColumns Wire.library Demo.trial 0 cols ∅ = ([Print_data []], Ok values) /\
  values !! "id"%string = Some GoNil /\
  values !! "name"%string = None.
Proof.
  intros cols values.
  assert (NoDup (Rel.Name <$> Columns Demo.trial)) as Hnd.
  { apply (bool_decide_unpack _). vm_compute. exact I. }
  assert (decodeColumns Wire.library Demo.trial 0 cols ∅
          = ([Print_data []], Ok values)) as Hrun.
  { vm_compute. reflexivity. }
  pose proof (null_differs_from_toast Wire.library Demo.trial cols
                [Print_data []] values Hnd Hrun) as H.
  split; [exact Hrun|]. split.
  - destruct (H 0%nat _ _ eq_refl eq_refl) as [Hn _]. exact (Hn eq_refl).
  - destruct (H 1%nat _ _ eq_refl eq_refl) as [_ Hu]. exact (Hu eq_refl).
Defined.

(** ** Text columns that fail to decode *)

Lemma decodeColumns_malformed L rel cols : forall idx values i col rc err,
  cols !! i = Some col ->
  Columns rel !! (idx + i)%nat = Some rc ->
  Tup.DataType col = "t"%byte ->
  decodeTextColumnData L (Tup.Data col) (Rel.DataType rc) = inl err ->
  exists evs err',
    decodeColumns L rel idx cols values =
      (evs, Stop (LogFatal (error_decoding_column_data err'))).
Proof.
  induction cols as [|c rest IH]; intros idx values i col rc err Hc Hrc Ht Hd.
  - done.
  - simpl. destruct i as [|i].
    + injection Hc as ->. rewrite Nat.add_0_r in Hrc. rewrite Hrc.
      destruct (decodeColumn_outcome L rc col values) as [H|H|? H|? H ?|H|H];
        try congruence.
      rewrite (bind_of_Stop _ _ _ _ eq_refl). eauto.
    + destruct (Columns rel !! idx) as [rc0|] eqn:Hrc0.
      2:{ apply lookup_ge_None in Hrc0. apply lookup_lt_Some in Hrc. lia. }
      destruct (decodeColumn L rc0 c values) as [evs1 [values1|e]] eqn:H1.
      * rewrite Nat.add_succ_r in Hrc.
        destruct (IH (S idx) values1 i col rc err Hc Hrc Ht Hd) as (evs2 & err' & H2).
        rewrite (bind_of_Ok _ _ _ _ eq_refl), H2. simpl. eauto.
      * rewrite (bind_of_Stop _ _ _ _ eq_refl).
        destruct (decodeColumn_outcome L rc0 c values); try discriminate.
        injection H1 as <- <-. eauto.
Qed.

Lemma ignoresPrints_isRow : ignoresPrints isRow.
Proof. done. Qed.

Lemma statusUpdate_no_row st tk : silent isRow (statusUpdate st tk).
Proof.
  unfold statusUpdate. destruct (After _ _); [|done]. by destruct (sendError tk).
Qed.

Lemma dispatch_rejects L rels rel id m :
  rels !! id = Some rel ->
  rejects L rel id m ->
  exists evs err,
    dispatch L rels m = (evs, Stop (LogFatal (error_decoding_column_data err))) /\
    existsb isRow evs = false.
Proof.
  intros Hrel Hrej.
  destruct m as [r| | |relationID Tuple|relationID ty OldTuple NewTuple| | | | |];
    try done; destruct Hrej as [-> Hrej]; cbn [dispatch]; rewrite Hrel.
  - destruct Hrej as (i & col & rc & err & Hc & Hrc & Ht & Hd).
    destruct (decodeColumns_malformed L rel Tuple 0 ∅ i col rc err Hc Hrc Ht Hd)
      as (evs & err' & H).
    exists evs, err'. rewrite (bind_of_Stop _ _ _ _ H). split; [done|].
    pose proof (decodeColumns_silent isRow L rel Tuple 0 ∅ ignoresPrints_isRow) as Hs.
    unfold silent in Hs. by rewrite H in Hs.
  - assert (forall t, malformed L rel t ->
              exists evs err',
                decodeColumns L rel 0 t ∅ =
                  (evs, Stop (LogFatal (error_decoding_column_data err'))) /\
                existsb isRow evs = false) as Hbad.
    { intros t (i & col & rc & err & Hc & Hrc & Ht & Hd).
      destruct (decodeColumns_malformed L rel t 0 ∅ i col rc err Hc Hrc Ht Hd)
        as (evs & err' & H).
      exists evs, err'. split; [done|].
      pose proof (decodeColumns_silent isRow L rel t 0 ∅ ignoresPrints_isRow) as Hs.
      unfold silent in Hs. by rewrite H in Hs. }
    assert (forall t, silent isRow (decodeColumns L rel 0 t ∅)) as Hquiet.
    { intros t. apply decodeColumns_silent, ignoresPrints_isRow. }
    unfold emit at 1. rewrite (bind_of_Ok _ _ _ _ eq_refl).
    destruct OldTuple as [t|].
    + destruct (decodeColumns L rel 0 t ∅) as [evs1 [old|e]] eqn:Hold.
      * destruct Hrej as [Hm|[_ Hm]].
        { destruct (Hbad t Hm) as (? & ? & ? & _). congruence. }
        destruct (Hbad NewTuple Hm) as (evs2 & err' & Hnew & Hq).
        rewrite (bind_of_Ok _ _ _ _ eq_refl), (bind_of_Stop _ _ _ _ Hnew). simpl.
        exists (Print_oldTuple (Some t) :: evs1 ++ evs2), err'. split; [done|].
        simpl. rewrite existsb_app, Hq. specialize (Hquiet t). unfold silent in Hquiet.
        rewrite Hold in Hquiet. simpl in Hquiet. by rewrite Hquiet.
      * rewrite (bind_of_Stop _ _ _ _ eq_refl). simpl.
        assert (exists err', e = LogFatal (error_decoding_column_data err'))
          as [err' ->].
        { destruct Hrej as [Hm|[Hlen _]].
          - destruct (Hbad t Hm) as (? & err' & H & _). rewrite Hold in H.
            injection H as _ ->. eauto.
          - apply decodeColumns_Stop in Hold as [|(i & _ & Hi)]; [done|lia]. }
        exists (Print_oldTuple (Some t) :: evs1), err'. split; [done|].
        simpl. specialize (Hquiet t). unfold silent in Hquiet.
        by rewrite Hold in Hquiet.
    + destruct (Hbad NewTuple Hrej) as (evs2 & err' & Hnew & Hq).
      unfold bind, ret. rewrite Hnew.
      simpl. exists (Print_oldTuple None :: evs2), err'. split; [done|]. exact Hq.
Qed.

(** Claim C2, as amended.  When a chunk carries an Insert or an Update for a
    cached relation and the decoding of its tuples reaches a text column
    whose bytes the decoder of the declared type rejects, the failure is
    fatal to the session: the loop ends with the error
    [error decoding column data], no row is logged for the message, and no
    later frame is processed. *)
Theorem text_decode_error_is_fatal (L : Library) (st : State) (tk : Tick)
    (ticks : list Tick) (buf : list byte) (xld : XLogData) (m : Message)
    (id : Z) (rel : RelationMessage) :
  sendError tk = None ->
  received tk = ReceiveOk (CopyData (XLogDataByteID :: buf)) ->
  ParseXLogData L buf = inr xld ->
  Parse L (WALData xld) = inr m ->
  relations st !! id = Some rel ->
  rejects L rel id m ->
  exists evs err,
    loop L (tk :: ticks) st =
      (evs, Stop (LogFatal (error_decoding_column_data err))) /\
    existsb isRow evs = false.
Proof.
  intros Hs Hr Hx Hp Hrel Hrej.
  destruct (iteration_chunk L st tk buf Hs Hr) as (st1 & _ & Hrel1 & Hit).
  rewrite <- Hrel1 in Hrel.
  destruct (dispatch_rejects L (relations st1) rel id m Hrel Hrej)
    as (evs & err & Hd & Hq).
  exists (fst (statusUpdate st tk)
            ++ [Log_XLogData xld; Log_receive_logical m] ++ evs), err.
  split.
  - apply loop_Stop. rewrite Hit, (handleXLogData_parsed _ _ _ _ _ Hx Hp).
    unfold afterParse, emit, bind. by rewrite Hd.
  - rewrite existsb_app. simpl. rewrite Hq, orb_false_r. apply statusUpdate_no_row.
Qed.

(** An Insert into [trial] whose [id], of type [int4], reads [abc]. *)
Lemma text_decode_error_is_fatal_witness :
  let payload := Wire.insert 1 [Wire.Text "abc"; Wire.Text "alice"] in
  let tk := Demo.frame (61 * Second) (Wire.xlogData 121 payload) in
  let next := Demo.frame (62 * Second) (Wire.xlogData 150 (Wire.begin 5 6)) in
  exists evs err,
    loop Wire.library [tk; next] Demo.session =
      (evs, Stop (LogFatal (error_decoding_column_data err))) /\
    existsb isRow evs = false.
Proof.
  intros payload tk next.
  apply (text_decode_error_is_fatal Wire.library Demo.session tk [next]
           (Wire.enc 8 121 ++ Wire.enc 8 0 ++ Wire.enc 8 0 ++ payload)
           {| WALStart := 121; ServerWALEnd := 0; ServerTime := 0;
              WALData := payload |}
           (MInsert 1 [Wire.Text "abc"; Wire.Text "alice"]) 1 Demo.trial).
  - reflexivity.
  - reflexivity.
  - reflexivity.
  - reflexivity.
  - vm_compute. reflexivity.
  - split; [reflexivity|].
    exists 0%nat, (Wire.Text "abc"),
      {| Rel.Flags := 0; Rel.Name := "id"; Rel.DataType := 23;
         Rel.TypeModifier := -1 |}, "invalid syntax"%string.
    repeat split.
Defined.

(** Claim C2 fails as stated: the text [abc] in a column of type [int4] is
    rejected by the decoder, and the loop does not go on to the next frame:
    it ends there with a fatal error. *)
Lemma malformed_text_stops_loop :
  let payload := Wire.insert 1 [Wire.Text "abc"; Wire.Text "alice"] in
  let tk := Demo.frame (61 * Second) (Wire.xlogData 121 payload) in
  let next := Demo.frame (62 * Second) (Wire.xlogData 150 (Wire.begin 5 6)) in
  decodeTextColumnData Wire.library (String.list_byte_of_string "abc") 23
    = inl "invalid syntax"%string /\
  snd (loop Wire.library [tk; next] Demo.session) =
    Stop (LogFatal (error_decoding_column_data "invalid syntax")) /\
  ~ (exists st', snd (iteration Wire.library Demo.session tk) = Ok st').
Proof.
  split; [reflexivity|]. split; [vm_compute; reflexivity|].
  intros [st' H]. vm_compute in H. discriminate.
Qed.

Example decodeTextColumnData_examples :
  decodeTextColumnData Wire.library (String.list_byte_of_string "-12") 23
    = inr (GoInt (-12)) /\
  decodeTextColumnData Wire.library (String.list_byte_of_string "4294967296") 23
    = inl "value out of range"%string /\
  decodeTextColumnData Wire.library (String.list_byte_of_string "abc") 2249
    = inr (GoString (String.list_byte_of_string "abc")) /\
  decodeTextColumnData Wire.library (String.list_byte_of_string "abc") 16385
    = inr (GoString (String.list_byte_of_string "abc")).
Proof. repeat split. Qed.

(** ** Where streaming starts *)

(** Claim C8, as amended.  When the bootstrap succeeds, streaming has been
    requested once, from the position that system identification reported
    ([sysident.XLogPos]), and the confirmed position starts there too; this
    is so whether the slot was found and reused or was created in this run.
    The slot is created exactly when the lookup returned nothing. *)
Theorem streaming_starts_at_system_position (su : Startup) (evs : list Event)
    (st : State) :
  bootstrap su = (evs, Ok st) ->
  exists sysident res,
    identifySystem su = inr sysident /\
    slotQuery su = inr res /\
    starts evs = [XLogPos sysident] /\
    clientXLogPos st = XLogPos sysident /\
    existsb isCreateSlot evs = Nat.eqb (length res) 0.
Proof.
  unfold bootstrap, check.
  destruct su as [[e1|] [e2|] [e3|] [e4|sysident] [e5|res] [e6|] [e7|] t0];
    simpl; try discriminate;
    destruct res as [|r res]; simpl; try discriminate;
    intros [= <- <-]; exists sysident; eexists; repeat split.
Qed.

Lemma streaming_starts_at_system_position_witness :
  let r := bootstrap Boot.existing in
  exists sysident res,
    identifySystem Boot.existing = inr sysident /\
    slotQuery Boot.existing = inr res /\
    starts (fst r) = [XLogPos sysident] /\
    clientXLogPos (Demo.stateAfter r) = XLogPos sysident /\
    existsb isCreateSlot (fst r) = Nat.eqb (length res) 0.
Proof.
  intros r.
  apply (streaming_starts_at_system_position Boot.existing (fst r) (Demo.stateAfter r)).
  reflexivity.
Defined.

(** Claim C8 fails as stated: with the slot already there and confirmed up
    to position 5, while the server's current position is 100, no slot is
    created and streaming is requested from 100, not from 5. *)
Lemma existing_slot_starts_at_system_position :
  let evs := fst (bootstrap Boot.existing) in
  slotQuery Boot.existing =
    inr [ {| Rows := [ {| slot_name := slotName; confirmed_flush_lsn := 5 |} ] |} ] /\
  existsb isCreateSlot evs = false /\
  starts evs = [100] /\
  starts evs <> [5] /\
  starts (fst (bootstrap Boot.absent)) = [100].
Proof. repeat split. intros H. vm_compute in H. discriminate. Qed.

(** * Further properties of the program *)

(** ** The relation cache *)

Lemma dispatch_Ok L rels m evs rels' :
  dispatch L rels m = (evs, Ok rels') ->
  rels' = rels \/ exists r, m = MRelation r /\ rels' = <[RelationID r := r]> rels.
Proof.
  destruct m as [r| | |relationID Tuple|relationID ty OldTuple NewTuple| | | | |];
    cbn [dispatch]; intros H.
  - injection H as _ <-. eauto.
  - apply bind_Ok in H as (? & ? & ? & _ & [= _ <-] & _). by left.
  - apply bind_Ok in H as (? & ? & ? & _ & [= _ <-] & _). by left.
  - destruct (rels !! relationID); [|discriminate].
    apply bind_Ok in H as (? & ? & ? & _ & H & _).
    apply bind_Ok in H as (? & ? & ? & _ & [= _ <-] & _). by left.
  - destruct (rels !! relationID); [|discriminate].
    apply bind_Ok in H as (? & ? & ? & _ & H & _).
    apply bind_Ok in H as (? & ? & ? & _ & H & _).
    apply bind_Ok in H as (? & ? & ? & _ & H & _).
    apply bind_Ok in H as (? & ? & ? & _ & [= _ <-] & _). by left.
  - apply bind_Ok in H as (? & ? & ? & _ & [= _ <-] & _). by left.
  - apply bind_Ok in H as (? & ? & ? & _ & [= _ <-] & _). by left.
  - apply bind_Ok in H as (? & ? & ? & _ & [= _ <-] & _). by left.
  - injection H as _ <-. by left.
  - apply bind_Ok in H as (? & ? & ? & _ & [= _ <-] & _). by left.
Qed.

Lemma handleXLogData_relations L st buf evs st' :
  handleXLogData L st buf = (evs, Ok st') ->
  exists xld m evs' rels',
    ParseXLogData L buf = inr xld /\ Parse L (WALData xld) = inr m /\
    dispatch L (relations st) m = (evs', Ok rels') /\
    relations st' = rels'.
Proof.
  unfold handleXLogData. destruct (ParseXLogData L buf) as [err|xld]; [discriminate|].
  intros H. apply bind_Ok in H as (? & [] & ? & _ & H & _).
  destruct (Parse L (WALData xld)) as [[p|err]|m] eqn:Hp; [discriminate..|].
  apply bind_Ok in H as (? & [] & ? & _ & H & _).
  apply bind_Ok in H as (evs1 & rels & ? & Hd & [= _ <-] & _).
  by exists xld, m, evs1, rels.
Qed.

(** Property X1.  The relation cache keeps the latest schema (lines 149-150).  When a
    chunk carries a Relation message, the loop goes round again with that
    message stored under its relation ID, in place of whatever was stored
    there, and with every other entry of the cache as it was. *)
Theorem relation_message_is_cached (L : Library) (st : State) (tk : Tick)
    (buf : list byte) (xld : XLogData) (m : RelationMessage) :
  sendError tk = None ->
  received tk = ReceiveOk (CopyData (XLogDataByteID :: buf)) ->
  ParseXLogData L buf = inr xld ->
  Parse L (WALData xld) = inr (MRelation m) ->
  exists evs st',
    iteration L st tk = (evs, Ok st') /\
    relations st' !! RelationID m = Some m /\
    (forall id, id <> RelationID m -> relations st' !! id = relations st !! id).
Proof.
  intros Hs Hr Hx Hp.
  destruct (iteration_chunk L st tk buf Hs Hr) as (st1 & _ & Hrel1 & Hit).
  rewrite Hit, (handleXLogData_parsed _ _ _ _ _ Hx Hp). cbn.
  eexists _, _. split; [reflexivity|]. simpl. rewrite Hrel1. split.
  - apply lookup_insert_eq.
  - intros id Hne. by apply lookup_insert_ne.
Qed.

(** A new schema for relation 1, which the session holds as [trial]. *)
Lemma relation_message_is_cached_witness :
  let m := {| RelationID := 1; Namespace := "public"; RelationName := "renamed";
              ReplicaIdentity := "d";
              Columns := [ {| Rel.Flags := 0; Rel.Name := "id"; Rel.DataType := 23;
                              Rel.TypeModifier := -1 |} ] |} in
  let payload := Wire.relation 1 "public" "renamed" [("id"%string, 23)] in
  let tk := Demo.frame (61 * Second) (Wire.xlogData 121 payload) in
  relations Demo.session !! 1 = Some Demo.trial /\
  exists evs st',
    iteration Wire.library Demo.session tk = (evs, Ok st') /\
    relations st' !! RelationID m = Some m /\
    (forall id, id <> RelationID m ->
                relations st' !! id = relations Demo.session !! id).
Proof.
  intros m payload tk. split; [vm_compute; reflexivity|].
  apply (relation_message_is_cached Wire.library Demo.session tk
           (Wire.enc 8 121 ++ Wire.enc 8 0 ++ Wire.enc 8 0 ++ payload)
           {| WALStart := 121; ServerWALEnd := 0; ServerTime := 0;
              WALData := payload |} m); reflexivity.
Defined.

(** Property X2.  Only a Relation message changes the relation cache (lines 148-252).  An
    iteration after which the cache differs has received an XLogData frame
    whose payload parsed to a Relation message, and the cache is the old one
    with that message stored under its ID. *)
Theorem cache_changes_only_by_relation (L : Library) (st st' : State) (tk : Tick)
    (evs : list Event) :
  iteration L st tk = (evs, Ok st') ->
  relations st' = relations st \/
  exists buf xld m,
    received tk = ReceiveOk (CopyData (XLogDataByteID :: buf)) /\
    ParseXLogData L buf = inr xld /\
    Parse L (WALData xld) = inr (MRelation m) /\
    relations st' = <[RelationID m := m]> (relations st).
Proof.
  intros H. apply iteration_Ok in H as (evs0 & st1 & evs1 & Hs & -> & H).
  apply statusUpdate_Ok in Hs as (_ & Hrel & _ & _).
  destruct H as [->|(Data & Hr & H)]; [by left|].
  apply handleCopyData_Ok in H
    as [(buf & -> & H)|[(buf & -> & H)|(b & buf & _ & _ & _ & ->)]].
  - apply handleKeepalive_Ok in H as (pkm & _ & ->). left.
    by destruct (ReplyRequested pkm).
  - apply handleXLogData_relations in H as (xld & m & evs' & rels' & Hx & Hp & Hd & Heq).
    apply dispatch_Ok in Hd as [->|(r & -> & ->)].
    + left. congruence.
    + right. exists buf, xld, r. rewrite Heq, Hrel. done.
  - by left.
Qed.

Lemma cache_changes_only_by_relation_witness :
  let tk := Demo.frame (61 * Second) (Wire.xlogData 121 (Wire.begin 5 6)) in
  let st' := Demo.stateAfter (iteration Wire.library Demo.session tk) in
  relations st' = relations Demo.session \/
  exists buf xld m,
    received tk = ReceiveOk (CopyData (XLogDataByteID :: buf)) /\
    ParseXLogData Wire.library buf = inr xld /\
    Parse Wire.library (WALData xld) = inr (MRelation m) /\
    relations st' = <[RelationID m := m]> (relations Demo.session).
Proof.
  intros tk st'.
  apply (cache_changes_only_by_relation Wire.library Demo.session st' tk
           (fst (iteration Wire.library Demo.session tk))).
  vm_compute. reflexivity.
Defined.

Lemma iteration_keeps_entries L st st' tk evs id :
  iteration L st tk = (evs, Ok st') ->
  is_Some (relations st !! id) -> is_Some (relations st' !! id).
Proof.
  intros H Hid.
  assert (relations st' = relations st \/
          exists m, relations st' = <[RelationID m := m]> (relations st)) as [->| [m ->]].
  { apply iteration_Ok in H as (evs0 & st1 & evs1 & Hs & -> & H).
    apply statusUpdate_Ok in Hs as (_ & Hrel & _ & _).
    destruct H as [->|(Data & Hr & H)]; [by left|].
    apply handleCopyData_Ok in H
      as [(buf & -> & H)|[(buf & -> & H)|(b & buf & _ & _ & _ & ->)]].
    - apply handleKeepalive_Ok in H as (pkm & _ & ->). left.
      by destruct (ReplyRequested pkm).
    - apply handleXLogData_relations in H
        as (xld & m & evs' & rels' & Hx & Hp & Hd & Heq).
      apply dispatch_Ok in Hd as [->|(r & -> & ->)].
      + left. congruence.
      + right. exists r. by rewrite Heq, Hrel.
    - by left. }
  - done.
  - destruct (decide (RelationID m = id)) as [<-|Hne].
    + rewrite lookup_insert_eq. eauto.
    + by rewrite lookup_insert_ne.
Qed.

(** Property X3.  Nothing is ever removed from the relation cache: the program has no
    [delete] on [relations].  However many times the loop goes round, a
    relation ID that had a schema at the start still has one. *)
Theorem cache_never_shrinks (L : Library) (ticks : list Tick) (st st' : State)
    (evs : list Event) (id : Z) :
  loop L ticks st = (evs, Ok st') ->
  is_Some (relations st !! id) ->
  is_Some (relations st' !! id).
Proof.
  revert st evs. induction ticks as [|tk ticks IH]; intros st evs; simpl.
  - by intros [= _ <-].
  - intros H Hid. apply bind_Ok in H as (evs1 & st1 & evs2 & H1 & H2 & _).
    eapply IH; [exact H2|]. by eapply iteration_keeps_entries.
Qed.

(** A new schema for relation 2, then a Begin: relation 1 is still cached. *)
Lemma cache_never_shrinks_witness :
  let ticks :=
    [Demo.frame (61 * Second)
       (Wire.xlogData 121 (Wire.relation 2 "public" "other" [("k"%string, 25)]));
     Demo.frame (62 * Second) (Wire.xlogData 150 (Wire.begin 5 6))] in
  let r := loop Wire.library ticks Demo.session in
  is_Some (relations (Demo.stateAfter r) !! 1).
Proof.
  intros ticks r.
  apply (cache_never_shrinks Wire.library ticks Demo.session (Demo.stateAfter r)
           (fst r) 1).
  - vm_compute. reflexivity.
  - vm_compute. eauto.
Defined.

(** ** What a status update reports *)

Lemma sentPositions_app evs1 evs2 :
  sentPositions (evs1 ++ evs2) = sentPositions evs1 ++ sentPositions evs2.
Proof. apply omap_app. Qed.

Lemma sentPositions_quiet evs : existsb isSend evs = false -> sentPositions evs = [].
Proof.
  induction evs as [|ev evs IH]; [done|]. simpl. intros H.
  apply orb_false_iff in H as [Hev H]. unfold sentPositions in *. simpl.
  destruct ev; try discriminate; by apply IH.
Qed.

Lemma iteration_events L st tk :
  exists evs1,
    fst (iteration L st tk) = fst (statusUpdate st tk) ++ evs1 /\
    existsb isSend evs1 = false.
Proof.
  unfold iteration. destruct (statusUpdate st tk) as [evs0 [st1|e]] eqn:Hs.
  - rewrite (bind_of_Ok _ _ _ _ eq_refl). simpl. eexists. split; [reflexivity|].
    destruct (received tk) as [timeout err|[text|Data|ty]]; simpl.
    + by destruct timeout.
    + done.
    + apply handleCopyData_quiet.
    + done.
  - exists []. by rewrite app_nil_r.
Qed.

(** Property X4.  A status update reports the position held when the loop
    comes round (lines 93-96): an iteration sends at most one update, it
    sends it exactly when the clock reads after the deadline, and the update
    carries the confirmed position the iteration started with, not the one a
    chunk received in the same iteration leads to. *)
Theorem status_update_carries_position (L : Library) (st : State) (tk : Tick) :
  sentPositions (fst (iteration L st tk)) =
    if After (now tk) (nextStandbyMessageDeadline st)
    then [clientXLogPos st] else [].
Proof.
  destruct (iteration_events L st tk) as (evs1 & -> & Hq).
  rewrite sentPositions_app, (sentPositions_quiet _ Hq), app_nil_r.
  unfold statusUpdate. destruct (After _ _); [|done]. by destruct (sendError tk).
Qed.

(** ** Receive timeouts *)

Lemma iteration_timeout L st tk :
  timesOut tk ->
  exists st',
    iteration L st tk = (fst (statusUpdate st tk), Ok st') /\
    clientXLogPos st' = clientXLogPos st /\ relations st' = relations st.
Proof.
  intros [Hs [err Hr]]. destruct (statusUpdate_total st tk Hs) as (evs0 & st1 & Hu).
  exists st1. unfold iteration. rewrite Hu, (bind_of_Ok _ _ _ _ eq_refl), Hr. simpl.
  rewrite app_nil_r. apply statusUpdate_Ok in Hu as (? & ? & _). done.
Qed.

(** Property X5.  A receive that times out is not an error (lines 107-110):
    as long as every receive times out and no status update fails, the loop
    keeps going round, the confirmed position and the relation cache stay as
    they were, and every status update sent meanwhile carries that same
    position. *)
Theorem timeouts_keep_session (L : Library) (ticks : list Tick) (st : State) :
  Forall timesOut ticks ->
  exists evs st',
    loop L ticks st = (evs, Ok st') /\
    clientXLogPos st' = clientXLogPos st /\
    relations st' = relations st /\
    Forall (fun pos => pos = clientXLogPos st) (sentPositions evs).
Proof.
  revert st. induction ticks as [|tk ticks IH]; intros st Hall.
  - exists [], st. repeat split. constructor.
  - apply Forall_cons in Hall as [Htk Hall].
    destruct (iteration_timeout L st tk Htk) as (st1 & Hit & Hpos & Hrel).
    destruct (IH st1 Hall) as (evs2 & st' & Hloop & Hpos' & Hrel' & Hsent).
    exists (fst (statusUpdate st tk) ++ evs2), st'. simpl.
    rewrite (bind_of_Ok _ _ _ _ Hit), Hloop. simpl.
    split; [done|]. split; [congruence|]. split; [congruence|].
    rewrite sentPositions_app. apply Forall_app. split.
    + unfold statusUpdate. destruct (After _ _); [|constructor].
      destruct (sendError tk); repeat constructor.
    + by rewrite <- Hpos.
Qed.

(** Four receives that time out at each deadline over thirty seconds. *)
Lemma timeouts_keep_session_witness :
  let start := 1000 * Second in
  let timeout (t : Time) := {| now := t; sendError := None; nowAfterSend := t;
                               received := ReceiveError true "timeout" |} in
  let ticks := [timeout (start + 61 * Second); timeout (start + 71 * Second + 1);
                timeout (start + 81 * Second + 2)] in
  exists evs st',
    loop Wire.library ticks Demo.session = (evs, Ok st') /\
    clientXLogPos st' = clientXLogPos Demo.session /\
    relations st' = relations Demo.session /\
    Forall (fun pos => pos = clientXLogPos Demo.session) (sentPositions evs).
Proof.
  intros start timeout ticks.
  apply (timeouts_keep_session Wire.library ticks Demo.session).
  repeat constructor; by exists "timeout"%string.
Defined.

(** ** How the loop can end *)


Lemma dispatch_Stop L rels m evs e :
  dispatch L rels m = (evs, Stop e) ->
  exists id, relationOf m = Some id /\
    match rels !! id with
    | None => e = LogFatal (unknown_relation_ID id)
    | Some rel =>
        exists t, t ∈ tuplesOf m /\ snd (decodeColumns L rel 0 t ∅) = Stop e
    end.
Proof.
  destruct m as [r| | |relationID Tuple|relationID ty OldTuple NewTuple| | | | |];
    cbn [dispatch]; intros H; try discriminate.
  - exists relationID. split; [done|].
    destruct (rels !! relationID) as [rel|]; [|by injection H as _ <-].
    apply bind_Stop in H as [H|(? & ? & ? & _ & H & _)]; [|discriminate].
    exists Tuple. rewrite H. split; [set_solver|done].
  - exists relationID. split; [done|].
    destruct (rels !! relationID) as [rel|]; [|by injection H as _ <-].
    apply bind_Stop in H as [H|(? & [] & ? & _ & H & _)]; [discriminate|].
    apply bind_Stop in H as [H|(? & ? & ? & _ & H & _)].
    { destruct OldTuple as [t|]; [|discriminate].
      exists t. rewrite H. split; [set_solver|done]. }
    apply bind_Stop in H as [H|(? & ? & ? & _ & H & _)]; [|discriminate].
    exists NewTuple. rewrite H. split; [|done].
    destruct OldTuple; set_solver.
Qed.

Lemma handleCopyData_Stop L st Data evs e :
  handleCopyData L st Data = (evs, Stop e) ->
  (Data = [] /\ e = Panicked (index_out_of_range 0 0)) \/
  (exists err, e = LogFatal (ParsePrimaryKeepaliveMessage_failed err)) \/
  (exists err, e = LogFatal (ParseXLogData_failed err)) \/
  (exists buf xld failure,
     Data = XLogDataByteID :: buf /\ ParseXLogData L buf = inr xld /\
     Parse L (WALData xld) = inl failure /\ e = undecoded failure) \/
  (exists buf xld m evs',
     Data = XLogDataByteID :: buf /\ ParseXLogData L buf = inr xld /\
     Parse L (WALData xld) = inr m /\
     dispatch L (relations st) m = (evs', Stop e)).
Proof.
  destruct Data as [|b buf]; simpl.
  { intros [= _ <-]. by left. }
  destruct (Byte.eqb b PrimaryKeepaliveMessageByteID).
  { unfold handleKeepalive.
    destruct (ParsePrimaryKeepaliveMessage L buf) as [err|pkm].
    - intros [= _ <-]. right. left. eauto.
    - intros H. apply bind_Stop in H as [H|(? & [] & ? & _ & H & _)]; [discriminate|].
      by destruct (ReplyRequested pkm). }
  destruct (Byte.eqb b XLogDataByteID) eqn:Hw; [|discriminate].
  apply Byte.byte_dec_bl in Hw as ->. unfold handleXLogData.
  destruct (ParseXLogData L buf) as [err|xld] eqn:Hx.
  { intros [= _ <-]. right. right. left. eauto. }
  intros H. apply bind_Stop in H as [H|(? & [] & ? & _ & H & _)]; [discriminate|].
  destruct (Parse L (WALData xld)) as [failure|m] eqn:Hp.
  { right. right. right. left. exists buf, xld, failure.
    destruct failure; injection H as _ <-; done. }
  apply bind_Stop in H as [H|(? & [] & ? & _ & H & _)]; [discriminate|].
  apply bind_Stop in H as [H|(? & ? & ? & _ & H & _)]; [|discriminate].
  right. right. right. right. exists buf, xld, m. eauto.
Qed.

Lemma dispatch_not_returned L rels m evs : dispatch L rels m <> (evs, Stop Returned).
Proof.
  intros H. apply dispatch_Stop in H as (id & _ & H).
  destruct (rels !! id) as [rel|]; [|discriminate].
  destruct H as (t & _ & H).
  destruct (decodeColumns L rel 0 t ∅) as [evs' r] eqn:Hd. simpl in H. subst r.
  apply decodeColumns_Stop in Hd as [(? & [=])|(? & [=] & _)].
Qed.

Lemma iteration_Stop L st tk evs e :
  iteration L st tk = (evs, Stop e) ->
  statusUpdate st tk = (evs, Stop e) \/
  exists evs0 st1 evs1,
    statusUpdate st tk = (evs0, Ok st1) /\ evs = evs0 ++ evs1 /\
    match received tk with
    | ReceiveError timeout err =>
        timeout = false /\ e = LogFatal (ReceiveMessage_failed err)
    | ReceiveOk (ErrorResponse _) => e = Returned
    | ReceiveOk (CopyData Data) => handleCopyData L st1 Data = (evs1, Stop e)
    | ReceiveOk (OtherBackendMessage _) => False
    end.
Proof.
  unfold iteration. intros H.
  apply bind_Stop in H as [H|(evs0 & st1 & evs1 & Hs & H & ->)]; [by left|].
  right. exists evs0, st1, evs1. split; [done|]. split; [done|].
  destruct (received tk) as [timeout err|[text|Data|ty]].
  - destruct timeout; [discriminate|]. by injection H as _ <-.
  - by injection H as _ <-.
  - done.
  - discriminate.
Qed.

(** Property X6.  The loop returns, rather than dying, exactly on an error
    response of the server (lines 114-117): an iteration ends with [return]
    if and only if its status update, when one is due, went through and the
    message received is a [pgproto3.ErrorResponse]. *)
Theorem returns_iff_error_response (L : Library) (st : State) (tk : Tick) :
  snd (iteration L st tk) = Stop Returned <->
  (exists st1, snd (statusUpdate st tk) = Ok st1) /\
  (exists text, received tk = ReceiveOk (ErrorResponse text)).
Proof.
  split.
  - destruct (iteration L st tk) as [evs r] eqn:Hit. simpl. intros ->.
    apply iteration_Stop in Hit as [H|(evs0 & st1 & evs1 & Hs & _ & H)].
    { unfold statusUpdate in H. destruct (After _ _); [|discriminate].
      by destruct (sendError tk). }
    split; [exists st1; by rewrite Hs|].
    destruct (received tk) as [timeout err|[text|Data|ty]].
    + by destruct H.
    + eauto.
    + apply handleCopyData_Stop in H
        as [[_ [=]]|[[? [=]]|[[? [=]]|[(? & ? & [] & _ & _ & _ & [=])
                                      |(? & ? & ? & ? & _ & _ & _ & H)]]]].
      by apply dispatch_not_returned in H.
    + done.
  - intros [[st1 Hs] [text Hr]]. unfold iteration.
    destruct (statusUpdate st tk) as [evs0 [st1'|e]]; [|discriminate].
    rewrite (bind_of_Ok _ _ _ _ eq_refl), Hr. done.
Qed.



(** ** What a row holds *)

Lemma decodeColumns_bound L rel cols : forall idx values0 evs values name v,
  decodeColumns L rel idx cols values0 = (evs, Ok values) ->
  values !! name = Some v ->
  values0 !! name = Some v \/
  exists i col rc,
    cols !! i = Some col /\ Columns rel !! (idx + i)%nat = Some rc /\
    Rel.Name rc = name /\
    ((Tup.DataType col = "n"%byte /\ v = GoNil) \/
     (Tup.DataType col = "t"%byte /\
      decodeTextColumnData L (Tup.Data col) (Rel.DataType rc) = inr v)).
Proof.
  induction cols as [|col rest IH]; intros idx values0 evs values name v H Hv.
  - injection H as _ <-. by left.
  - apply decodeColumns_cons_Ok in H
      as (rc & evs1 & values1 & evs2 & Hrc & H1 & H2 & _).
    destruct (IH _ _ _ _ _ _ H2 Hv) as [Hv1|(i & col' & rc' & Hc & Hrc' & Hn & Htag)].
    + assert (values0 !! name = Some v \/
              (Rel.Name rc = name /\
               ((Tup.DataType col = "n"%byte /\ v = GoNil) \/
                (Tup.DataType col = "t"%byte /\
                 decodeTextColumnData L (Tup.Data col) (Rel.DataType rc) = inr v))))
        as [?|[Hn Htag]]; [|by left|].
      { destruct (decodeColumn_outcome L rc col values0) as [Ht|Ht|? Ht Hd|? Ht|Ht|];
          try discriminate; injection H1 as _ <-; auto;
          (destruct (decide (Rel.Name rc = name)) as [Heq|Hne];
           [rewrite Heq, lookup_insert_eq in Hv1; injection Hv1 as <-; right; auto
           |rewrite lookup_insert_ne in Hv1 by done; by left]). }
      right. exists 0%nat, col, rc. by rewrite Nat.add_0_r.
    + right. exists (S i), col', rc'. by rewrite Nat.add_succ_r.
Qed.

(** Property X8.  A row only holds what null and text columns put there
    (lines 167-181): every name bound in the row built for a tuple is the
    name of a schema column at the position of a tuple column tagged null,
    and then bound to nil, or tagged text, and then bound to what
    [decodeTextColumnData] returned for it.  Binary columns, unchanged TOAST
    columns and columns with any other tag bind nothing. *)
Theorem row_holds_null_and_text (L : Library) (rel : RelationMessage)
    (cols : TupleData) (evs : list Event) (values : Row) (name : string)
    (v : GoValue) :
  decodeColumns L rel 0 cols ∅ = (evs, Ok values) ->
  values !! name = Some v ->
  exists i col rc,
    cols !! i = Some col /\ Columns rel !! i = Some rc /\ Rel.Name rc = name /\
    ((Tup.DataType col = "n"%byte /\ v = GoNil) \/
     (Tup.DataType col = "t"%byte /\
      decodeTextColumnData L (Tup.Data col) (Rel.DataType rc) = inr v)).
Proof.
  intros H Hv. destruct (decodeColumns_bound _ _ _ _ _ _ _ _ _ H Hv) as [He|He].
  - by rewrite lookup_empty in He.
  - done.
Qed.

(** The row of [("7", binary, ...)] for [trial] binds [id] only. *)
Lemma row_holds_null_and_text_witness :
  let cols := [Wire.Text "7"; {| Tup.DataType := "b"; Tup.Data := ["001"%byte] |}] in
  let values : Row := <["id"%string := GoInt 7]> ∅ in
  exists i col rc,
    cols !! i = Some col /\ Columns Demo.trial !! i = Some rc /\
    Rel.Name rc = "id"%string /\
    ((Tup.DataType col = "n"%byte /\ GoInt 7 = GoNil) \/
     (Tup.DataType col = "t"%byte /\
      decodeTextColumnData Wire.library (Tup.Data col) (Rel.DataType rc)
        = inr (GoInt 7))).
Proof.
  intros cols values.
  apply (row_holds_null_and_text Wire.library Demo.trial cols
           [Print_byte_data ["001"%byte]] values "id" (GoInt 7)).
  - vm_compute. reflexivity.
  - vm_compute. reflexivity.
Defined.

Lemma decodeColumns_text L rel cols : forall idx values0 evs values i col rc,
  NoDup (Rel.Name <$> Columns rel) ->
  decodeColumns L rel idx cols values0 = (evs, Ok values) ->
  cols !! i = Some col ->
  Columns rel !! (idx + i)%nat = Some rc ->
  (Tup.DataType col = "t"%byte ->
   exists val, decodeTextColumnData L (Tup.Data col) (Rel.DataType rc) = inr val /\
               values !! Rel.Name rc = Some val) /\
  (Tup.DataType col <> "n"%byte -> Tup.DataType col <> "t"%byte ->
   values !! Rel.Name rc = values0 !! Rel.Name rc).
Proof.
  induction cols as [|c rest IH]; intros idx values0 evs values i col rc Hnd H Hc Hrc.
  - done.
  - apply decodeColumns_cons_Ok in H
      as (rc0 & evs1 & values1 & evs2 & Hrc0 & H1 & H2 & _).
    destruct i as [|i].
    + injection Hc as ->. rewrite Nat.add_0_r, Hrc0 in Hrc. injection Hrc as ->.
      assert (values !! Rel.Name rc = values1 !! Rel.Name rc) as ->.
      { apply (decodeColumns_other _ _ _ _ _ _ _ _ H2). intros j rc' Hj Hrc'.
        apply (distinct_names rel idx j); [done..|lia]. }
      destruct (decodeColumn_outcome L rc col values0) as [Ht|Ht|val Ht Hd|? Ht|Ht|Hn Hu Ht];
        try discriminate; injection H1 as _ <-;
        (split; [intros Htag; try congruence|intros Hn' Ht'; try congruence]).
      exists val. by rewrite lookup_insert_eq.
    + simpl in Hc. rewrite Nat.add_succ_r in Hrc.
      destruct (IH (S idx) values1 evs2 values i col rc Hnd H2 Hc Hrc) as [Ht Ho].
      split; [done|]. intros Hn' Ht'. rewrite (Ho Hn' Ht').
      apply (decodeColumn_other _ _ _ _ _ _ _ H1).
      apply (distinct_names rel idx (S (idx + i))); [done..|lia].
Qed.

(** Property X9.  For a schema with distinct column names, the row built
    for a tuple binds the name of each text column to the value
    [decodeTextColumnData] returns for its bytes and the column's type OID
    (lines 173-178), and leaves out the name of every column that is neither
    null nor text: unchanged TOAST, binary, or any other tag. *)
Theorem text_column_is_decoded (L : Library) (rel : RelationMessage)
    (cols : TupleData) (evs : list Event) (values : Row) :
  NoDup (Rel.Name <$> Columns rel) ->
  decodeColumns L rel 0 cols ∅ = (evs, Ok values) ->
  forall i col rc,
    cols !! i = Some col -> Columns rel !! i = Some rc ->
    (Tup.DataType col = "t"%byte ->
     exists val, decodeTextColumnData L (Tup.Data col) (Rel.DataType rc) = inr val /\
                 values !! Rel.Name rc = Some val) /\
    (Tup.DataType col <> "n"%byte -> Tup.DataType col <> "t"%byte ->
     values !! Rel.Name rc = None).
Proof.
  intros Hnd H i col rc Hc Hrc.
  destruct (decodeColumns_text L rel cols 0 ∅ evs values i col rc Hnd H Hc Hrc)
    as [Ht Ho].
  split; [done|]. intros Hn' Ht'. by rewrite (Ho Hn' Ht'), lookup_empty.
Qed.

(** The tuple [("7", binary)] for [trial]. *)
Lemma text_column_is_decoded_witness :
  let binary := {| Tup.DataType := "b"; Tup.Data := ["001"%byte] |} in
  let cols := [Wire.Text "7"; binary] in
  let values : Row := <["id"%string := GoInt 7]> ∅ in
  (exists val,
     decodeTextColumnData Wire.library (String.list_byte_of_string "7") 23 = inr val /\
     values !! "id"%string = Some val) /\
  values !! "name"%string = None.
Proof.
  intros binary cols values.
  assert (NoDup (Rel.Name <$> Columns Demo.trial)) as Hnd.
  { apply (bool_decide_unpack _). vm_compute. exact I. }
  assert (decodeColumns Wire.library Demo.trial 0 cols ∅
          = ([Print_byte_data ["001"%byte]], Ok values)) as Hrun.
  { vm_compute. reflexivity. }
  pose proof (text_column_is_decoded Wire.library Demo.trial cols
                [Print_byte_data ["001"%byte]] values Hnd Hrun) as H.
  split.
  - destruct (H 0%nat _ _ eq_refl eq_refl) as [Ht _]. exact (Ht eq_refl).
  - destruct (H 1%nat _ _ eq_refl eq_refl) as [_ Ho]. apply Ho; discriminate.
Defined.

(** ** Tuples longer than the schema *)




(** ** Types without a text decoder *)

Lemma decodeTextColumnData_unregistered L data oid :
  unregistered L oid -> decodeTextColumnData L data oid = GenericText L data.
Proof.
  unfold unregistered, decodeTextColumnData.
  destruct (DataTypeForOID L oid) as [dt|].
  - intros ->. by destruct (GenericText L data).
  - intros _. by destruct (GenericText L data).
Qed.

(** Property X11.  A column type without a text decoder of its own does not
    stop the stream (lines 261-268).  If the generic text decoder accepts
    every input, a tuple that fits the schema and whose text columns all have
    type OIDs that are not registered, or are registered with a value that is
    no text decoder, always yields a row, and each such text column holds
    what the generic decoder returns for its bytes. *)
Theorem generic_fallback_yields_row (L : Library) (rel : RelationMessage)
    (cols : TupleData) :
  (forall data, exists v, GenericText L data = inr v) ->
  (length cols <= length (Columns rel))%nat ->
  (forall i col rc,
     cols !! i = Some col -> Columns rel !! i = Some rc ->
     Tup.DataType col = "t"%byte -> unregistered L (Rel.DataType rc)) ->
  (exists evs values, decodeColumns L rel 0 cols ∅ = (evs, Ok values)) /\
  (forall i col rc,
     cols !! i = Some col -> Columns rel !! i = Some rc ->
     Tup.DataType col = "t"%byte ->
     decodeTextColumnData L (Tup.Data col) (Rel.DataType rc) =
       GenericText L (Tup.Data col)).
Proof.
  intros Hgen Hlen Hun. split.
  - destruct (decodeColumns L rel 0 cols ∅) as [evs [values|e]] eqn:H; [eauto|].
    exfalso. apply decodeColumns_Stop in H as Hstop.
    destruct Hstop as [(err & ->)|(i & _ & Hi)]; [|lia].
    apply decodeColumns_fatal in H as (i & col & rc & err' & Hc & Hrc & Ht & Hd & _).
    rewrite (decodeTextColumnData_unregistered _ _ _ (Hun i col rc Hc Hrc Ht)) in Hd.
    destruct (Hgen (Tup.Data col)) as [v Hv]. congruence.
  - intros i col rc Hc Hrc Ht.
    by apply decodeTextColumnData_unregistered, (Hun i col rc Hc Hrc Ht).
Qed.

(** A table with a column of type OID 16385, that of a user-defined type,
    which is not registered, and one of OID 2249 ([record]), registered with
    a value that is no text decoder. *)
Lemma generic_fallback_yields_row_witness :
  let rel := {| RelationID := 3; Namespace := "public"; RelationName := "shapes";
                ReplicaIdentity := "d";
                Columns := [ {| Rel.Flags := 0; Rel.Name := "p"; Rel.DataType := 16385;
                                Rel.TypeModifier := -1 |};
                             {| Rel.Flags := 0; Rel.Name := "v"; Rel.DataType := 2249;
                                Rel.TypeModifier := -1 |} ] |} in
  let cols := [Wire.Text "(1,2)"; Wire.Text ""] in
  (exists evs values,
     decodeColumns Wire.library rel 0 cols ∅ = (evs, Ok values)) /\
  (forall i col rc,
     cols !! i = Some col -> Columns rel !! i = Some rc ->
     Tup.DataType col = "t"%byte ->
     decodeTextColumnData Wire.library (Tup.Data col) (Rel.DataType rc) =
       GenericText Wire.library (Tup.Data col)).
Proof.
  intros rel cols.
  apply (generic_fallback_yields_row Wire.library rel cols).
  - intros data. by exists (GoString data).
  - simpl. lia.
  - intros [|[|i]] col rc Hc Hrc _; simpl in *; try discriminate;
      injection Hrc as <-; reflexivity.
Defined.

(** ** The position over a whole session *)

Lemma iteration_position L st tk evs st' :
  iteration L st tk = (evs, Ok st') ->
  clientXLogPos st' = default (clientXLogPos st) (chunkEnd L tk).
Proof.
  unfold iteration, chunkEnd. intros H.
  apply bind_Ok in H as (evs0 & st1 & evs1 & Hs & H & _).
  apply statusUpdate_Ok in Hs as (Hpos & _ & _ & _). rewrite <- Hpos.
  destruct (received tk) as [timeout err|[text|Data|ty]].
  - destruct timeout; [|discriminate]. by injection H as _ <-.
  - discriminate.
  - apply handleCopyData_Ok in H
      as [(buf & -> & H)|[(buf & -> & H)|(b & buf & -> & _ & Hw & ->)]].
    + apply handleKeepalive_Ok in H as (pkm & _ & ->). simpl.
      by destruct (ReplyRequested pkm).
    + apply handleXLogData_Ok in H as (xld & Hx & -> & _). simpl. by rewrite Hx.
    + by rewrite Hw.
  - by injection H as _ <-.
Qed.

(** Property X12.  The confirmed position follows the last chunk only (line
    254).  When the loop has gone round for a list of received messages, the
    confirmed position is the end, [WALStart] plus payload length modulo
    2^64, of the last XLogData chunk among them, or the initial position
    when there was no chunk; keepalives, timeouts and other messages in
    between do not count, and the position is again a 64-bit value. *)
Theorem position_follows_last_chunk (L : Library) (ticks : list Tick)
    (st st' : State) (evs : list Event) :
  loop L ticks st = (evs, Ok st') ->
  clientXLogPos st' = lastChunkEnd L ticks (clientXLogPos st) /\
  (0 <= clientXLogPos st < 2 ^ 64 -> 0 <= clientXLogPos st' < 2 ^ 64).
Proof.
  revert st evs. unfold lastChunkEnd.
  induction ticks as [|tk ticks IH]; intros st evs; simpl.
  - by intros [= _ <-].
  - intros H. apply bind_Ok in H as (evs1 & st1 & evs2 & H1 & H2 & _).
    apply iteration_position in H1. apply IH in H2 as [Hpos Hrange].
    rewrite <- H1. split; [done|]. intros Hst. apply Hrange. rewrite H1.
    unfold chunkEnd.
    destruct (received tk) as [timeout err|[text|[|b buf]|ty]]; try done.
    destruct (Byte.eqb b XLogDataByteID); [|done].
    destruct (ParseXLogData L buf) as [|xld]; [done|]. simpl.
    unfold LSN_add. apply Z.mod_pos_bound. lia.
Qed.

(** A chunk that ends at 221, a keepalive, a chunk that ends at 31, a
    timeout. *)
Lemma position_follows_last_chunk_witness :
  let ticks :=
    [Demo.frame (61 * Second) (Wire.xlogData 200 (Wire.begin 5 6));
     Demo.frame (62 * Second) (Wire.keepalive 300 false);
     Demo.frame (63 * Second) (Wire.xlogData 10 (Wire.begin 5 6));
     {| now := 64 * Second; sendError := None; nowAfterSend := 64 * Second;
        received := ReceiveError true "timeout" |}] in
  let st' := Demo.stateAfter (loop Wire.library ticks Demo.session) in
  lastChunkEnd Wire.library ticks (clientXLogPos Demo.session) = 31 /\
  clientXLogPos st' = lastChunkEnd Wire.library ticks (clientXLogPos Demo.session) /\
  (0 <= clientXLogPos Demo.session < 2 ^ 64 -> 0 <= clientXLogPos st' < 2 ^ 64).
Proof.
  intros ticks st'. split; [reflexivity|].
  apply (position_follows_last_chunk Wire.library ticks Demo.session st'
           (fst (loop Wire.library ticks Demo.session))).
  vm_compute. reflexivity.
Defined.

(** ** A bootstrap that fails *)

(** Property X13.  Streaming is only requested at the end of a bootstrap
    that went through (lines 33-83).  When the bootstrap does not reach the
    loop, either [StartReplication] itself failed, or it was never called;
    and the bootstrap panics, instead of logging a fatal error, exactly when
    the lookup of the replication slot failed (lines 67-70). *)
Theorem failed_bootstrap_does_not_stream (su : Startup) (evs : list Event)
    (e : Exit) :
  bootstrap su = (evs, Stop e) ->
  (starts evs = [] \/
   exists err, startReplicationError su = Some err /\
               e = LogFatal (StartReplication_failed err)) /\
  ((exists p, e = Panicked p) <->
   connectError su = None /\ dropPublicationError su = None /\
   createPublicationError su = None /\
   (exists sysident, identifySystem su = inr sysident) /\
   (exists err, slotQuery su = inl err /\ e = Panicked (panic_error err))).
Proof.
  unfold bootstrap, check.
  destruct su as [[e1|] [e2|] [e3|] [e4|sysident] [e5|res] [e6|] [e7|] t0];
    simpl; try discriminate; try destruct res as [|r res]; simpl;
    try discriminate; intros [= <- <-]; simpl;
    (split; [eauto|]);
    (split; [intros [p [=]]; subst; eauto 10
            |intros (? & ? & ? & [? ?] & ? & ? & ?); simplify_eq; eauto]).
Qed.

(** System identification fails. *)
Lemma failed_bootstrap_does_not_stream_witness :
  let su :=
    {| connectError := None; dropPublicationError := None;
       createPublicationError := None;
       identifySystem := inl "syntax error"%string;
       slotQuery := inr []; createSlotError := None;
       startReplicationError := None; startNow := 1000 * Second |} in
  let evs := fst (bootstrap su) in
  let e := LogFatal (IdentifySystem_failed "syntax error") in
  (starts evs = [] \/
   exists err, startReplicationError su = Some err /\
               e = LogFatal (StartReplication_failed err)) /\
  ((exists p, e = Panicked p) <->
   connectError su = None /\ dropPublicationError su = None /\
   createPublicationError su = None /\
   (exists sysident, identifySystem su = inr sysident) /\
   (exists err, slotQuery su = inl err /\ e = Panicked (panic_error err))).
Proof.
  intros su evs e.
  apply (failed_bootstrap_does_not_stream su evs e). reflexivity.
Defined.

(** ** The deadline *)

(** Property X14.  The deadline of the next status update moves in two ways
    only (lines 101 and 133-135).  After an iteration that goes round again
    it is Go's zero time if the message received was a keepalive asking for a
    reply; otherwise ten seconds after the clock reading that followed the
    status update, if one was sent; otherwise what it was.  In particular a
    data chunk never touches it. *)
Theorem deadline_after_iteration (L : Library) (st st' : State) (tk : Tick)
    (evs : list Event) :
  iteration L st tk = (evs, Ok st') ->
  nextStandbyMessageDeadline st' =
    if replyRequested L tk then zeroTime
    else if After (now tk) (nextStandbyMessageDeadline st)
         then nowAfterSend tk + 10 * Second
         else nextStandbyMessageDeadline st.
Proof.
  intros H. rewrite (iteration_deadline _ _ _ _ _ H).
  pose proof (iteration_sends L st tk) as Hsend. rewrite H in Hsend.
  simpl in Hsend. rewrite Hsend. unfold standbyMessageTimeout.
  by rewrite (Z.mul_comm Second 10).
Qed.

(** A chunk received at second 71, one second after the deadline. *)
Lemma deadline_after_iteration_witness :
  let tk := Demo.frame (71 * Second) (Wire.xlogData 200 (Wire.begin 5 6)) in
  let st' := Demo.stateAfter (iteration Wire.library Demo.session tk) in
  nextStandbyMessageDeadline st' = 81 * Second /\
  nextStandbyMessageDeadline st' =
    if replyRequested Wire.library tk then zeroTime
    else if After (now tk) (nextStandbyMessageDeadline Demo.session)
         then nowAfterSend tk + 10 * Second
         else nextStandbyMessageDeadline Demo.session.
Proof.
  intros tk st'. split; [reflexivity|].
  apply (deadline_after_iteration Wire.library Demo.session st' tk
           (fst (iteration Wire.library Demo.session tk))).
  vm_compute. reflexivity.
Defined.

(** ** Rows that decode *)

(** Property X15.  An Insert for a cached relation whose tuple decodes is
    logged once, after the prints of its columns, under the namespace and
    name of the cached schema and with the row the per-column loop built
    (lines 159-184); the cache is left as it was, the position moves to the
    end of the chunk and the loop goes round again. *)
Theorem insert_logs_row (L : Library) (st : State) (tk : Tick) (buf : list byte)
    (xld : XLogData) (relationID : Z) (Tuple : TupleData)
    (rel : RelationMessage) (prints : list Event) (values : Row) :
  sendError tk = None ->
  received tk = ReceiveOk (CopyData (XLogDataByteID :: buf)) ->
  ParseXLogData L buf = inr xld ->
  Parse L (WALData xld) = inr (MInsert relationID Tuple) ->
  relations st !! relationID = Some rel ->
  decodeColumns L rel 0 Tuple ∅ = (prints, Ok values) ->
  exists st',
    iteration L st tk =
      (fst (statusUpdate st tk)
         ++ [Log_XLogData xld; Log_receive_logical (MInsert relationID Tuple)]
         ++ prints ++ [Log_insert (Namespace rel) (RelationName rel) values],
       Ok st') /\
    relations st' = relations st /\
    clientXLogPos st' = LSN_add (WALStart xld) (Z.of_nat (length (WALData xld))).
Proof.
  intros Hs Hr Hx Hp Hrel Hd.
  destruct (iteration_chunk L st tk buf Hs Hr) as (st1 & _ & Hrel1 & Hit).
  rewrite Hit, (handleXLogData_parsed _ _ _ _ _ Hx Hp).
  unfold afterParse. cbn [dispatch]. rewrite Hrel1, Hrel.
  unfold bind, emit, ret. rewrite Hd. simpl. rewrite app_nil_r.
  eexists. split; [reflexivity|]. done.
Qed.

(** The insert of [("7", "alice")] into [trial]. *)
Lemma insert_logs_row_witness :
  let cols := [Wire.Text "7"; Wire.Text "alice"] in
  let payload := Wire.insert 1 cols in
  let tk := Demo.frame (61 * Second) (Wire.xlogData 121 payload) in
  let xld := {| WALStart := 121; ServerWALEnd := 0; ServerTime := 0;
                WALData := payload |} in
  let values : Row :=
    <["id"%string := GoInt 7]>
      (<["name"%string := GoString (String.list_byte_of_string "alice")]> ∅) in
  exists st',
    iteration Wire.library Demo.session tk =
      (fst (statusUpdate Demo.session tk)
         ++ [Log_XLogData xld; Log_receive_logical (MInsert 1 cols)]
         ++ [] ++ [Log_insert (Namespace Demo.trial) (RelationName Demo.trial) values],
       Ok st') /\
    relations st' = relations Demo.session /\
    clientXLogPos st' = LSN_add (WALStart xld) (Z.of_nat (length (WALData xld))).
Proof.
  intros cols payload tk xld values.
  apply (insert_logs_row Wire.library Demo.session tk
           (Wire.enc 8 121 ++ Wire.enc 8 0 ++ Wire.enc 8 0 ++ payload)
           xld 1 cols Demo.trial [] values).
  - reflexivity.
  - reflexivity.
  - reflexivity.
  - reflexivity.
  - vm_compute. reflexivity.
  - vm_compute. reflexivity.
Defined.

(** Property X16.  An Update without an old tuple is not an error (lines
    192-214): for a cached relation and a new tuple that decodes, the update
    is logged with the row of the new tuple and an empty row for the old
    one, and the loop goes round again with the cache as it was. *)
Theorem update_without_old_tuple (L : Library) (st : State) (tk : Tick)
    (buf : list byte) (xld : XLogData) (relationID : Z) (ty : byte)
    (NewTuple : TupleData) (rel : RelationMessage) (prints : list Event)
    (newValues : Row) :
  sendError tk = None ->
  received tk = ReceiveOk (CopyData (XLogDataByteID :: buf)) ->
  ParseXLogData L buf = inr xld ->
  Parse L (WALData xld) = inr (MUpdate relationID ty None NewTuple) ->
  relations st !! relationID = Some rel ->
  decodeColumns L rel 0 NewTuple ∅ = (prints, Ok newValues) ->
  exists st',
    iteration L st tk =
      (fst (statusUpdate st tk)
         ++ [Log_XLogData xld;
             Log_receive_logical (MUpdate relationID ty None NewTuple);
             Print_oldTuple None]
         ++ prints
         ++ [Log_update (Namespace rel) (RelationName rel) newValues ∅],
       Ok st') /\
    relations st' = relations st.
Proof.
  intros Hs Hr Hx Hp Hrel Hd.
  destruct (iteration_chunk L st tk buf Hs Hr) as (st1 & _ & Hrel1 & Hit).
  rewrite Hit, (handleXLogData_parsed _ _ _ _ _ Hx Hp).
  unfold afterParse. cbn [dispatch]. rewrite Hrel1, Hrel.
  unfold bind, emit, ret. rewrite Hd. simpl. rewrite app_nil_r.
  eexists. split; [reflexivity|]. done.
Qed.

(** An update of [trial] that sends the new tuple only. *)
Lemma update_without_old_tuple_witness :
  let cols := [Wire.Text "7"; Wire.Null] in
  let payload := "U"%byte :: Wire.enc 4 1 ++ "N"%byte :: Wire.tuple cols in
  let tk := Demo.frame (61 * Second) (Wire.xlogData 121 payload) in
  let xld := {| WALStart := 121; ServerWALEnd := 0; ServerTime := 0;
                WALData := payload |} in
  let newValues : Row :=
    <["id"%string := GoInt 7]> (<["name"%string := GoNil]> ∅) in
  exists st',
    iteration Wire.library Demo.session tk =
      (fst (statusUpdate Demo.session tk)
         ++ [Log_XLogData xld;
             Log_receive_logical (MUpdate 1 "000" None cols);
             Print_oldTuple None]
         ++ []
         ++ [Log_update (Namespace Demo.trial) (RelationName Demo.trial)
               newValues ∅],
       Ok st') /\
    relations st' = relations Demo.session.
Proof.
  intros cols payload tk xld newValues.
  apply (update_without_old_tuple Wire.library Demo.session tk
           (Wire.enc 8 121 ++ Wire.enc 8 0 ++ Wire.enc 8 0 ++ payload)
           xld 1 "000" cols Demo.trial [] newValues).
  - reflexivity.
  - reflexivity.
  - reflexivity.
  - reflexivity.
  - vm_compute. reflexivity.
  - vm_compute. reflexivity.
Defined.
